(** * camoufox-launchOptions: launch-option assembly, embedded and verified

    A shallow embedding of the TypeScript sources

      - [helper.ts]     (addToConfig, the write-once accumulator)
      - [launchPath.ts] (launchPath and the executable check)
      - [proxy.ts]      (getKyInstance, getPublicIP)
      - [geoData.ts]    (pickPubIP, getGeolocationAndLocale)
      - [main.ts]       (zodCamoufoxLaunchOptions, camoufoxLaunchOptions)

    JavaScript values are a small tagged union, plain objects are finite
    maps from property names to values, strings are byte strings holding
    UTF-8, and every [await] on the file system or the network is a step
    of a writer/error monad that records the I/O performed.

    The schemas are embedded combinator by combinator, with what zod does
    when it runs them: a run ends with a value, ends with issues, or
    throws.  The string patterns of zod, the WHATWG URL parser, node:path,
    node:fs, ky, maxmind and country-locale-map are not part of the
    repository: they are the fields of the class [Host].  The general
    theorems hold for every host; the closed instances at the end run the
    code on the reference hosts of the modules [Sample] and [Cases].

    [camoufoxLaunchOptions] is [safeParse] followed by the assembly of the
    descriptor from the validated value ([assemble]).  The schema cannot
    discriminate on [proxy], so every call throws in [safeParse]; the
    properties of the assembly are stated for [assemble], on the values of
    the schema's output type. *)

From Stdlib Require Import Ascii String QArith.
From stdpp Require Import gmap strings list fin_maps.

#[local] Set Warnings "-register-all".
#[local] Open Scope string_scope.

(** ** JavaScript values *)

Module Js.

(** The values that reach the validator and the two config maps.  Finite
    numbers are rationals; [NaN] and the infinities are rejected by
    [z.number()] and never stored. *)
Inductive JsVal : Type :=
| JUndefined
| JNull
| JBool (b : bool)
| JNum (q : Q)
| JStr (s : string)
| JObj (props : gmap string JsVal).

(** [o[k]] on a plain object: a missing own property reads as [undefined]. *)
Definition prop (k : string) (props : gmap string JsVal) : JsVal :=
  default JUndefined (props !! k).

(** Truthiness of a string ([if (s)]): every string but the empty one. *)
Definition truthy_str (s : string) : bool :=
  match s with
  | EmptyString => false
  | String _ _ => true
  end.

(** A [string | false] or [string | undefined] value when it is truthy:
    the string itself unless it is empty, and nothing otherwise.  With
    [None] read as [false] this is also [x ? x : false]. *)
Definition if_truthy (x : option string) : option string :=
  match x with
  | Some s => if truthy_str s then Some s else None
  | None => None
  end.

(** Truthiness of a finite number: every number but zero. *)
Definition truthy_num (q : Q) : bool := negb (Qnum q =? 0)%Z.

(** The property names every plain object inherits from [Object.prototype];
    the [in] operator sees them although they are not own properties. *)
Definition object_prototype_keys : list string :=
  [ "constructor"; "__defineGetter__"; "__defineSetter__"; "hasOwnProperty";
    "__lookupGetter__"; "__lookupSetter__"; "isPrototypeOf";
    "propertyIsEnumerable"; "toString"; "valueOf"; "__proto__";
    "toLocaleString" ].

(** [key in target] for an object created by [{}]: own or inherited. *)
Definition js_in (key : string) (target : gmap string JsVal) : bool :=
  bool_decide (is_Some (target !! key))
  || bool_decide (key ∈ object_prototype_keys).

(** Strings are byte strings holding UTF-8.  [bytes] builds one from the
    values of its bytes. *)
Definition bytes (ns : list nat) : string :=
  string_of_list_ascii (map ascii_of_nat ns).

(** The white space removed by [String.prototype.trim]: the WhiteSpace and
    LineTerminator code points of ECMAScript, each in its UTF-8 encoding. *)
Definition white_space : list string :=
  [ bytes [9]; bytes [10]; bytes [11]; bytes [12]; bytes [13]; bytes [32];
    bytes [194; 160];        (* U+00A0 *)
    bytes [225; 154; 128];   (* U+1680 *)
    bytes [226; 128; 128]; bytes [226; 128; 129]; bytes [226; 128; 130];
    bytes [226; 128; 131]; bytes [226; 128; 132]; bytes [226; 128; 133];
    bytes [226; 128; 134]; bytes [226; 128; 135]; bytes [226; 128; 136];
    bytes [226; 128; 137]; bytes [226; 128; 138];   (* U+2000 .. U+200A *)
    bytes [226; 128; 168]; bytes [226; 128; 169];   (* U+2028, U+2029 *)
    bytes [226; 128; 175];   (* U+202F *)
    bytes [226; 129; 159];   (* U+205F *)
    bytes [227; 128; 128];   (* U+3000 *)
    bytes [239; 187; 191] ]. (* U+FEFF *)

(** [s] without its prefix [p], when it starts with [p]. *)
Fixpoint strip_prefix (p s : string) : option string :=
  match p, s with
  | EmptyString, _ => Some s
  | String a p', String b s' => if Ascii.eqb a b then strip_prefix p' s' else None
  | String _ _, EmptyString => None
  end.

(** [s] without its first character, when that is one of [spaces]. *)
Definition skip_one (spaces : list string) (s : string) : option string :=
  head (omap (λ w, strip_prefix w s) spaces).

(** Drops leading characters of [spaces]; every step removes at least one
    byte, so the length of the string is fuel enough. *)
Fixpoint skip (spaces : list string) (fuel : nat) (s : string) : string :=
  match fuel with
  | O => s
  | S fuel =>
      match skip_one spaces s with
      | Some r => skip spaces fuel r
      | None => s
      end
  end.

Definition trim_start (s : string) : string :=
  skip white_space (String.length s) s.

(** The same from the other end, on the reversed string. *)
Definition trim_end (s : string) : string :=
  String.rev (skip (map String.rev white_space) (String.length s) (String.rev s)).

Definition trim (s : string) : string := trim_end (trim_start s).

(** [s.split(sep)] for a one-character separator: the segments between
    separators, [[""]] for the empty string, and an empty segment after a
    trailing separator. *)
Fixpoint split_char (sep : ascii) (s : string) : list string :=
  match s with
  | EmptyString => [EmptyString]
  | String c r =>
      if Ascii.eqb c sep then EmptyString :: split_char sep r
      else match split_char sep r with
           | seg :: segs => String c seg :: segs
           | [] => [String c EmptyString]
           end
  end.

(** [s.split(",")] *)
Definition split_comma (s : string) : list string := split_char ","%char s.

(** [parts.join(", ")]. *)
Fixpoint join_comma_space (parts : list string) : string :=
  match parts with
  | [] => ""
  | [p] => p
  | p :: ps => p +:+ ", " +:+ join_comma_space ps
  end.

(** A [Set<string>] keeps insertion order and ignores a value it already
    holds; [values().next().value] is its first element. *)
Definition set_add (x : string) (s : list string) : list string :=
  if bool_decide (x ∈ s) then s else s ++ [x].

Definition set_first (s : list string) : option string := head s.

End Js.
Export Js.

(** ** helper.ts *)

Module Helper.

(** [addToConfig(target, key, value)]: assigns only when [key in target] is
    false.  The mutated object is returned as the new map. *)
Definition addToConfig (target : gmap string JsVal) (key : string) (value : JsVal)
  : gmap string JsVal :=
  if negb (js_in key target) then <[key := value]> target else target.

End Helper.
Export Helper.

(** ** The host: third-party libraries and the outside world *)

Module Host.

(** [process.platform] after the module-level check of launchPath.ts, which
    throws at load time on any other operating system. *)
Inductive Platform : Type := win32 | darwin | linux.

(** What [fs.stat] reports about an existing path. *)
Inductive FileKind : Type := RegularFile | Directory | OtherKind.

Definition isFile (k : FileKind) : bool :=
  match k with RegularFile => true | _ => false end.

Definition isDirectory (k : FileKind) : bool :=
  match k with Directory => true | _ => false end.

(** [path.parse(p)]: only the [dir] field is read. *)
Record ParsedPath : Type := { dir : string }.

(** The parts of a parsed [URL] the code reads. *)
Record URL : Type := { protocol : string; port : string; href : string }.

(** How ky routes a request: directly, through an undici [ProxyAgent], or
    through a SOCKS5 dispatcher. *)
Inductive Dispatcher : Type :=
| Direct
| HttpProxy (uri : string)
| Socks5Proxy (host port : string) (userId password : option string).

(** Outcome of [await customKy.get(service)]: the promise rejects (a
    network failure, or a status the client turns into an error), or it
    resolves to a response with its [ok] flag and its body text. *)
Inductive Fetch : Type :=
| Rejected
| Responded (ok : bool) (text : string).

(** The fields of maxmind's city and country responses that are read.  A
    field the database record does not carry reads as [undefined], here
    [None]. *)
Record LocationRecord : Type :=
  { loc_longitude : option Q; loc_latitude : option Q; accuracy_radius : option Q;
    time_zone : option string }.

Record CountryRecord : Type := { iso_code : string }.

Record MmdbRecord : Type :=
  { location : option LocationRecord; country : option CountryRecord }.

(** Everything the repository imports or asks of its environment.  An
    operation that can reject or throw returns [None] there. *)
Class Host : Type := {
  (* zod/v4/mini *)
  z_ipv4 : string → bool;
  z_ipv6 : string → bool;
  z_regexes_domain : string → bool;
  (* the WHATWG URL constructor *)
  URL_new : string → option URL;
  (* node:path, node:os, node:process *)
  path_parse : string → ParsedPath;
  path_resolve : list string → string;
  path_join : list string → string;
  os_homedir : string;
  osName : Platform;
  process_env : gmap string string;
  (* node:fs/promises *)
  fs_stat : string → option FileKind;
  fs_readFile : string → option string;
  (* maxmind and country-locale-map *)
  Reader_new : string → option (string → option MmdbRecord);
  clm_getCountryByAlpha2 : string → option (list string);
  (* ky *)
  ky_get : Dispatcher → string → Fetch;
}.

End Host.
Export Host.

(** ** Effects: thrown errors and the I/O performed *)

Module Effects.

(** The errors the code throws or lets through.  One constructor per
    [throw new Error(...)] of the sources, and one per kind of rejection
    of a host operation that no [catch] intercepts. *)
Inductive Error : Type :=
| ZodError                        (* a failed safeParse, prettified, or a throwing parse *)
| InvalidUnionOption (index : nat) (* zod: "Invalid discriminated union option at index ..." *)
| DuplicateDiscriminator          (* zod: "Duplicate discriminator value ..." *)
| FsError (path : string)         (* fs.stat or fs.readFile rejects *)
| ReaderError                     (* new Reader(buffer) throws *)
| KyError (url : string)          (* customKy.get rejects *)
| UrlTypeError                    (* new URL(...) throws *)
| UnsupportedProxyProtocol        (* "Unsupported Proxy Protocol, ..." *)
| PublicIPFailed                  (* "Failed to automatically get public IP" *)
| ValidIPRequired                 (* "... A valid IP address is requied" *)
| MmdbFileNotFound                (* "... '.mmdb' file not found" *)
| NoGeoData (ip : string)         (* "... No geoData found for current IP: ..." *)
| UnknownIsoCountryCode           (* "... Unknown iso country code" *)
| CamoufoxNotInstalled.           (* "Camoufox is Not Installed" *)

(** One entry per suspension point that touches the file system or the
    network.  [EvHttpGet] is one [await customKy.get(url)]; how many
    requests the client sends for it is the client's business. *)
Inductive Event : Type :=
| EvStat (path : string)
| EvReadFile (path : string)
| EvHttpGet (url : string).

(** An async computation: the I/O it performed, in order, and either the
    error that ended it or its value. *)
Definition IO (A : Type) : Type := list Event * (Error + A).

Definition io_ret {A} (a : A) : IO A := ([], inr a).

Definition io_bind {A B} (f : A → IO B) (m : IO A) : IO B :=
  match m.2 with
  | inl e => (m.1, inl e)
  | inr a => ((m.1 ++ (f a).1)%list, (f a).2)
  end.

Definition throw {A} (e : Error) : IO A := ([], inl e).

#[global] Instance io_mret : MRet IO := @io_ret.
#[global] Instance io_mbind : MBind IO := @io_bind.

Definition trace {A} (m : IO A) : list Event := m.1.
Definition result {A} (m : IO A) : Error + A := m.2.


Section with_host.
Context `{Host}.

(** [await fs.stat(path)] *)
Definition stat (path : string) : IO FileKind :=
  ([EvStat path],
   match fs_stat path with Some k => inr k | None => inl (FsError path) end).

(** [await fs.readFile(path)] *)
Definition readFile (path : string) : IO string :=
  ([EvReadFile path],
   match fs_readFile path with Some b => inr b | None => inl (FsError path) end).

End with_host.

End Effects.
Export Effects.

(** ** launchPath.ts *)

Module LaunchPath.
Section with_host.
Context `{Host}.

Definition getDefaultInstallDirectory : string :=
  match osName with
  | win32 =>
      path_join [os_homedir; "AppData"; "Local"; "camoufox"; "camoufox"; "Cache"]
  | darwin =>
      let basePath := path_join [os_homedir; "Library"; "Caches"; "camoufox"] in
      path_resolve [basePath; "Camoufox.app"; "Contents"; "Resources"; "../MacOS"]
  | linux =>
      path_join [os_homedir; ".cache"; "camoufox"]
  end.

Definition defaultInstall : string := getDefaultInstallDirectory.

Definition camoufoxExecutable (os : Platform) : string :=
  match os with
  | win32 => "camoufox.exe"
  | darwin => "camoufox"
  | linux => "camoufox-bin"
  end.

(** Returns the resolved path, or [false] (here [None]). *)
Definition validatedExecutablePath (directory : ParsedPath) (executable : string)
  : IO (option string) :=
  let parsedExecutable := path_resolve [dir directory; executable] in
  fileStats ← stat parsedExecutable;
  if isFile fileStats then mret (Some parsedExecutable) else mret None.

Definition checkIfCamoufoxIsInstalled (directory : string) : IO (option string) :=
  let parsedDirectory := path_parse directory in
  directoryStats ← stat (dir parsedDirectory);
  if isDirectory directoryStats then
    executableValid ← validatedExecutablePath parsedDirectory (camoufoxExecutable osName);
    match if_truthy executableValid with
    | Some executableValid => mret (Some executableValid)
    | None => mret None
    end
  else mret None.

Definition launchPath (customInstall : option string) : IO string :=
  camoufoxInstalled ←
    match if_truthy customInstall with
    | Some customInstall => checkIfCamoufoxIsInstalled customInstall
    | None => checkIfCamoufoxIsInstalled defaultInstall
    end;
  match if_truthy camoufoxInstalled with
  | Some camoufoxInstalled => mret camoufoxInstalled
  | None => throw CamoufoxNotInstalled
  end.

End with_host.
End LaunchPath.
Export LaunchPath.

(** ** The validated option types of main.ts *)

Module Options.

(** [zvui.proxy] *)
Record ProxyConfig : Type :=
  { server : string; username : option string; password : option string;
    bypass : option string }.

(** [ipInputObjectType]: an absent family is [None]. *)
Record ipInputObjectType : Type :=
  { in_ipv4 : option string; in_ipv6 : option string }.

(** [ipOutputObjectType]: [false] is [None]. *)
Record ipOutputObjectType : Type :=
  { ipv4 : option string; ipv6 : option string }.

(** [zvui.geoip], also the first argument of [getPublicIP], whose declared
    type leaves out the boolean [false]. *)
Inductive Geoip : Type :=
| GeoipBool (b : bool)
| GeoipObject (o : ipInputObjectType).

Inductive Humanize : Type :=
| HumanizeBool (b : bool)
| HumanizeNumber (q : Q).

(** [CamoufoxLaunchOptions], the output type of the schema. *)
Record CamoufoxLaunchOptions : Type :=
  { headless : option bool;
    proxy : option ProxyConfig;
    geoip : option Geoip;
    humanize : option Humanize;
    enableCache : option bool;
    executablePath : option string }.

End Options.
Export Options.

(** ** proxy.ts *)

Module Proxy.
Section with_host.
Context `{Host}.

(** [await customKy.get(service)] *)
Definition get (customKy : Dispatcher) (service : string) : IO (bool * string) :=
  ([EvHttpGet service],
   match ky_get customKy service with
   | Rejected => inl (KyError service)
   | Responded ok text => inr (ok, text)
   end).

(** Synchronous; performs no I/O.  [z.coerce.number()] cannot fail on the
    port of a parsed URL (digits, or the empty string), so the port is
    kept as the URL has it. *)
Definition getKyInstance (proxy : option ProxyConfig) : IO Dispatcher :=
  match proxy with
  | Some proxy =>
      match URL_new (server proxy) with
      | None => throw UrlTypeError
      | Some proxyUrl =>
          if String.eqb (protocol proxyUrl) "http:"
             || String.eqb (protocol proxyUrl) "https:"
          then mret (HttpProxy (server proxy))
          else if String.eqb (protocol proxyUrl) "socks5:"
          then mret (Socks5Proxy (server proxy) (port proxyUrl)
                                 (username proxy) (password proxy))
          else throw UnsupportedProxyProtocol
      end
  | None => mret Direct
  end.

(** A [z.optional(pattern)] field of an already typed object. *)
Definition optional_ok (pattern : string → bool) (field : option string) : bool :=
  match field with Some s => pattern s | None => true end.

Definition ipInputObject_safeParse (input : Geoip) : option ipInputObjectType :=
  match input with
  | GeoipBool _ => None
  | GeoipObject o =>
      if optional_ok z_ipv4 (in_ipv4 o) && optional_ok z_ipv6 (in_ipv6 o)
      then Some o else None
  end.

(** [ipOutputObject.parse]: throws on a field that is neither a literal
    of its family nor [false]. *)
Definition ipOutputObject_parse (o : ipOutputObjectType) : IO ipOutputObjectType :=
  if optional_ok z_ipv4 (ipv4 o) && optional_ok z_ipv6 (ipv6 o)
  then mret o else throw ZodError.

Definition whatsMyIPList : list string :=
  [ "https://api.ipify.org";
    "https://checkip.amazonaws.com";
    "https://icanhazip.com";
    "https://ifconfig.co/ip";
    "https://ipecho.net/plain";
    "https://ipinfo.io/ip" ].

(** One iteration of the detection loop on the pair (ipv4Set, ipv6Set). *)
Definition detect (customKy : Dispatcher) (sets : list string * list string)
    (service : string) : IO (list string * list string) :=
  '(ok, text) ← get customKy service;
  if (ok : bool) then
    let pubIP := trim text in
    let ipv4Set := if z_ipv4 pubIP then set_add pubIP sets.1 else sets.1 in
    let ipv6Set := if z_ipv6 pubIP then set_add pubIP sets.2 else sets.2 in
    mret (ipv4Set, ipv6Set)
  else mret sets.

(** [for (const service of services) { ... }] *)
Fixpoint detect_loop (customKy : Dispatcher) (services : list string)
    (sets : list string * list string) : IO (list string * list string) :=
  match services with
  | [] => mret sets
  | service :: rest =>
      sets' ← detect customKy sets service;
      detect_loop customKy rest sets'
  end.

(** [pattern.safeParse(x)] on a [string | undefined]. *)
Definition safeParse_first (pattern : string → bool) (x : option string)
  : option string :=
  match x with
  | Some s => if pattern s then Some s else None
  | None => None
  end.

Definition getPublicIP (input : Geoip) (proxy : option ProxyConfig)
  : IO ipOutputObjectType :=
  match ipInputObject_safeParse input with
  | Some data =>
      ipOutputObject_parse
        {| ipv4 := if_truthy (in_ipv4 data); ipv6 := if_truthy (in_ipv6 data) |}
  | None =>
      customKy ← getKyInstance proxy;
      sets ← detect_loop customKy whatsMyIPList ([], []);
      if Nat.eqb (length sets.1) 0 && Nat.eqb (length sets.2) 0
      then throw PublicIPFailed
      else
        let IPv4 := set_first sets.1 in
        let IPv6 := set_first sets.2 in
        ipOutputObject_parse
          {| ipv4 := safeParse_first z_ipv4 IPv4;
             ipv6 := safeParse_first z_ipv6 IPv6 |}
  end.

End with_host.
End Proxy.
Export Proxy.

(** ** geoData.ts *)

Module GeoData.

(** The output type of [geolocationAndLocaleObject]. *)
Record GeoLocale : Type :=
  { longitude : Q; latitude : Q; accuracy : Q;
    timezone : option string; locales : string }.

Section with_host.
Context `{Host}.

Definition pickPubIP (ipObject : ipOutputObjectType) : IO string :=
  match ipv4 ipObject, ipv6 ipObject with
  | Some v4, None => mret v4
  | None, Some v6 => mret v6
  | Some v4, Some _ => mret v4
  | None, None => throw ValidIPRequired
  end.

(** [new Reader(buffer)] *)
Definition newReader (buffer : string) : IO (string → option MmdbRecord) :=
  match Reader_new buffer with
  | Some reader => mret reader
  | None => throw ReaderError
  end.

(** [geolocationAndLocaleObject.parse]: throws when one of the three
    numbers is missing; the optional string and the string always pass. *)
Definition geolocationAndLocaleObject_parse
    (longitude' latitude' accuracy' : option Q) (timezone' : option string)
    (locales' : string) : IO GeoLocale :=
  match longitude', latitude', accuracy' with
  | Some lon, Some lat, Some acc =>
      mret {| longitude := lon; latitude := lat; accuracy := acc;
              timezone := timezone'; locales := locales' |}
  | _, _, _ => throw ZodError
  end.

Definition getGeolocationAndLocale (ipObject : ipOutputObjectType)
    (directory : string) : IO GeoLocale :=
  pubIP ← pickPubIP ipObject;
  let parsedDirectory := path_parse directory in
  let mmdbFile := path_resolve [dir parsedDirectory; "GeoLite2-City.mmdb"] in
  fileStats ← stat mmdbFile;
  if isFile fileStats then
    buffer ← readFile mmdbFile;
    cityLookup ← newReader buffer;
    countryLookup ← newReader buffer;
    let maxmindCity := cityLookup pubIP in
    let maxmindCountry := countryLookup pubIP in
    match maxmindCity, maxmindCountry with
    | Some maxmindCity, Some maxmindCountry =>
        match location maxmindCity, country maxmindCountry with
        | Some location, Some country =>
            match clm_getCountryByAlpha2 (iso_code country) with
            | Some clmLocales =>
                geolocationAndLocaleObject_parse
                  (loc_longitude location) (loc_latitude location)
                  (accuracy_radius location) (time_zone location)
                  (join_comma_space clmLocales)
            | None => throw UnknownIsoCountryCode
            end
        | _, _ => throw (NoGeoData pubIP)
        end
    | _, _ => throw (NoGeoData pubIP)
    end
  else throw MmdbFileNotFound.

End with_host.
End GeoData.
Export GeoData.

(** ** main.ts: the input schema *)

Module Schema.
Section with_host.
Context `{Host}.

Definition z_boolean (v : JsVal) : option bool :=
  match v with JBool b => Some b | _ => None end.

Definition z_string (v : JsVal) : option string :=
  match v with JStr s => Some s | _ => None end.

Definition z_undefined (v : JsVal) : option unit :=
  match v with JUndefined => Some () | _ => None end.

Definition z_optional {T} (schema : JsVal → option T) (v : JsVal)
  : option (option T) :=
  match v with JUndefined => Some None | _ => Some <$> schema v end.

(** A string checked against a pattern: [z.ipv4()], [z.ipv6()]. *)
Definition z_format (pattern : string → bool) (v : JsVal) : option string :=
  s ← z_string v; if pattern s then Some s else None.

(** [z.number().check(z.positive())] *)
Definition z_positive (v : JsVal) : option Q :=
  match v with
  | JNum q => if (0 <? Qnum q)%Z then Some q else None
  | _ => None
  end.

(** [z.strictObject]: no own key outside the declared shape. *)
Definition strict (shape : list string) (props : gmap string JsVal) : bool :=
  bool_decide (dom props ⊆ list_to_set (C := gset string) shape).

(** The two shapes of an explicit address pair. *)
Definition ipv4_required (v : JsVal) : option ipInputObjectType :=
  match v with
  | JObj props =>
      if strict ["ipv4"; "ipv6"] props then
        v4 ← z_format z_ipv4 (prop "ipv4" props);
        v6 ← z_optional (z_format z_ipv6) (prop "ipv6" props);
        Some {| in_ipv4 := Some v4; in_ipv6 := v6 |}
      else None
  | _ => None
  end.

Definition ipv6_required (v : JsVal) : option ipInputObjectType :=
  match v with
  | JObj props =>
      if strict ["ipv4"; "ipv6"] props then
        v4 ← z_optional (z_format z_ipv4) (prop "ipv4" props);
        v6 ← z_format z_ipv6 (prop "ipv6" props);
        Some {| in_ipv4 := v4; in_ipv6 := Some v6 |}
      else None
  | _ => None
  end.

(** Two primitive values are the same key of a [Map]; an object is never
    the same as a literal. *)
Definition same_value (a b : JsVal) : bool :=
  match a, b with
  | JUndefined, JUndefined | JNull, JNull => true
  | JBool x, JBool y => Bool.eqb x y
  | JNum x, JNum y => Qeq_bool x y
  | JStr x, JStr y => String.eqb x y
  | _, _ => false
  end.

(** The literal values a field schema declares ([_zod.values]).
    [z.undefined()] declares [undefined]; [z.optional(s)] declares those
    of [s] and [undefined], when [s] declares any; a string format
    ([z.ipv4()]) and an object schema ([z.strictObject]) declare none. *)
Definition values_undefined : option (list JsVal) := Some [JUndefined].

Definition values_optional (inner : option (list JsVal)) : option (list JsVal) :=
  (λ values, if existsb (same_value JUndefined) values then values
             else (values ++ [JUndefined])%list) <$> inner.

Definition no_values : option (list JsVal) := None.

(** An option of a discriminated union: the values its shape declares for
    the discriminator key ([propValues[discriminator]]) and the parser of
    the option. *)
Record UnionOption (A : Type) : Type :=
  { discriminator_values : option (list JsVal);
    run : gmap string JsVal → Error + option A }.
Arguments discriminator_values {A} _.
Arguments run {A} _ _.

(** Enters the values of one option into the lookup table; a value that
    is already there throws. *)
Fixpoint add_values {A} (values : list JsVal) (o : UnionOption A)
    (table : list (JsVal * UnionOption A)) : Error + list (JsVal * UnionOption A) :=
  match values with
  | [] => inr table
  | v :: values =>
      if existsb (λ entry, same_value v entry.1) table
      then inl DuplicateDiscriminator
      else add_values values o (table ++ [(v, o)])%list
  end.

(** The lookup table of a discriminated union, built from its options in
    order when the first object is parsed.  An option that declares no
    value for the discriminator throws, with its index in the message. *)
Fixpoint disc {A} (index : nat) (options : list (UnionOption A))
    (table : list (JsVal * UnionOption A)) : Error + list (JsVal * UnionOption A) :=
  match options with
  | [] => inr table
  | o :: rest =>
      match discriminator_values o with
      | None | Some [] => inl (InvalidUnionOption index)
      | Some values =>
          match add_values values o table with
          | inl e => inl e
          | inr table => disc (S index) rest table
          end
      end
  end.

(** [z.discriminatedUnion(discriminator, options)] run on a value: a value
    that is no object ends with an issue; for an object the table is
    built (or thrown from), the option under the object's discriminator
    is run, and no option there ends with an issue. *)
Definition z_discriminatedUnion {A} (discriminator : string)
    (options : list (UnionOption A)) (input : JsVal) : Error + option A :=
  match input with
  | JObj props =>
      match disc 0 options [] with
      | inl e => inl e
      | inr table =>
          match find (λ entry, same_value (prop discriminator props) entry.1) table with
          | Some entry => run entry.2 props
          | None => inr None
          end
      end
  | _ => inr None
  end.

(** [z.union([z.boolean(), z.discriminatedUnion("ipv4", [...])])]: the
    options are tried in order.  Neither option of the inner union
    declares a literal for [ipv4] ([z.ipv4()] in the first,
    [z.optional(z.ipv4())] in the second). *)
Definition z_geoip (v : JsVal) : Error + option Geoip :=
  match z_boolean v with
  | Some b => inr (Some (GeoipBool b))
  | None =>
      match z_discriminatedUnion "ipv4"
              [ {| discriminator_values := no_values;
                   run := λ props, inr (ipv4_required (JObj props)) |};
                {| discriminator_values := values_optional no_values;
                   run := λ props, inr (ipv6_required (JObj props)) |} ] v with
      | inl e => inl e
      | inr o => inr (GeoipObject <$> o)
      end
  end.

(** [z.optional] of a schema that can throw. *)
Definition z_optional_throwing {T} (schema : JsVal → Error + option T) (v : JsVal)
  : Error + option (option T) :=
  match v with
  | JUndefined => inr (Some None)
  | _ => match schema v with
         | inl e => inl e
         | inr r => inr (Some <$> r)
         end
  end.

Definition z_humanize (v : JsVal) : option Humanize :=
  match z_boolean v with
  | Some b => Some (HumanizeBool b)
  | None => HumanizeNumber <$> z_positive v
  end.

(** The refinement of [bypass]: every segment between commas matches the
    domain pattern; the loop returns [false] at the first that does not. *)
Definition bypass_refine (bypassList : string) : bool :=
  forallb z_regexes_domain (split_comma bypassList).

Definition z_bypass (v : JsVal) : option string :=
  s ← z_string v; if bypass_refine s then Some s else None.

(** [url.protocol] without its final colon, as the check reads it. *)
Fixpoint strip_colon (p : string) : string :=
  match p with
  | EmptyString => EmptyString
  | String c EmptyString => if Ascii.eqb c ":"%char then EmptyString else p
  | String c r => String c (strip_colon r)
  end.

(** The pattern [/(^https?$|^socks5$)/]. *)
Definition proxy_protocol (p : string) : bool :=
  String.eqb p "http" || String.eqb p "https" || String.eqb p "socks5".

(** [z.url({ protocol, normalize: true })]: the string parses as a URL, its
    protocol matches, and the output is the URL's [href]. *)
Definition z_url (v : JsVal) : option string :=
  s ← z_string v;
  url ← URL_new s;
  if proxy_protocol (strip_colon (protocol url)) then Some (href url) else None.

Definition z_proxy (v : JsVal) : option ProxyConfig :=
  match v with
  | JObj props =>
      if strict ["server"; "username"; "password"; "bypass"] props then
        server' ← z_url (prop "server" props);
        username' ← z_optional z_string (prop "username" props);
        password' ← z_optional z_string (prop "password" props);
        bypass' ← z_optional z_bypass (prop "bypass" props);
        Some {| server := server'; username := username';
                password := password'; bypass := bypass' |}
      else None
  | _ => None
  end.

Definition shape : list string :=
  ["headless"; "proxy"; "geoip"; "humanize"; "enableCache"; "executablePath"].

(** First option of the union: [proxy] is undefined, [geoip] optional.
    An object schema runs every field, so a field whose schema throws
    makes the whole option throw; only [geoip] has such a schema. *)
Definition no_proxy_variant (props : gmap string JsVal)
  : Error + option CamoufoxLaunchOptions :=
  match z_optional_throwing z_geoip (prop "geoip" props) with
  | inl e => inl e
  | inr geoip' =>
      inr (if strict shape props then
             headless' ← z_optional z_boolean (prop "headless" props);
             _ ← z_optional z_undefined (prop "proxy" props);
             geoip' ← geoip';
             humanize' ← z_optional z_humanize (prop "humanize" props);
             enableCache' ← z_optional z_boolean (prop "enableCache" props);
             executablePath' ← z_optional z_string (prop "executablePath" props);
             Some {| headless := headless'; proxy := None; geoip := geoip';
                     humanize := humanize'; enableCache := enableCache';
                     executablePath := executablePath' |}
           else None)
  end.

(** Second option: [proxy] is a proxy object, [geoip] is required. *)
Definition has_proxy_variant (props : gmap string JsVal)
  : Error + option CamoufoxLaunchOptions :=
  match z_geoip (prop "geoip" props) with
  | inl e => inl e
  | inr geoip' =>
      inr (if strict shape props then
             headless' ← z_optional z_boolean (prop "headless" props);
             proxy' ← z_proxy (prop "proxy" props);
             geoip' ← geoip';
             humanize' ← z_optional z_humanize (prop "humanize" props);
             enableCache' ← z_optional z_boolean (prop "enableCache" props);
             executablePath' ← z_optional z_string (prop "executablePath" props);
             Some {| headless := headless'; proxy := Some proxy'; geoip := Some geoip';
                     humanize := humanize'; enableCache := enableCache';
                     executablePath := executablePath' |}
           else None)
  end.

(** [zodCamoufoxLaunchOptions.safeParse]: the union of the two options,
    discriminated on [proxy].  The first option declares [undefined] for
    it ([z.optional(z.undefined())]); the second declares nothing, its
    [proxy] being an object schema. *)
Definition zodCamoufoxLaunchOptions (input : JsVal)
  : Error + option CamoufoxLaunchOptions :=
  z_discriminatedUnion "proxy"
    [ {| discriminator_values := values_optional values_undefined;
         run := no_proxy_variant |};
      {| discriminator_values := no_values;
         run := has_proxy_variant |} ] input.

End with_host.
End Schema.
Export Schema.

(** ** main.ts: the orchestrator *)

Module Playwright.
(** The fields of Playwright's [LaunchOptions] that are returned. *)
Record LaunchOptions : Type :=
  { executablePath : string;
    env : gmap string JsVal;
    proxy : option ProxyConfig;
    firefoxUserPrefs : gmap string JsVal;
    headless : bool }.
End Playwright.

Module Main.

(** The six destructured parameters; a missing one is [JUndefined]. *)
Record RawOptions : Type :=
  { raw_headless : JsVal;
    raw_proxy : JsVal;
    raw_geoip : JsVal;
    raw_humanize : JsVal;
    raw_enableCache : JsVal;
    raw_executablePath : JsVal }.

(** The properties of the object literal rebuilt from them. *)
Definition raw_props (raw : RawOptions) : gmap string JsVal :=
  <["headless" := raw_headless raw]>
  (<["proxy" := raw_proxy raw]>
  (<["geoip" := raw_geoip raw]>
  (<["humanize" := raw_humanize raw]>
  (<["enableCache" := raw_enableCache raw]>
  (<["executablePath" := raw_executablePath raw]> ∅))))).

(** The object handed to [safeParse]. *)
Definition raw_object (raw : RawOptions) : JsVal := JObj (raw_props raw).

(** [z.union([z.string(), z.number(), z.boolean()])] *)
Definition config_value (v : JsVal) : bool :=
  match v with
  | JStr _ | JNum _ | JBool _ => true
  | _ => false
  end.

(** [configCheck.safeParse]: a record whose values all pass. *)
Definition configCheck (m : gmap string JsVal) : option (gmap string JsVal) :=
  if bool_decide (map_Forall (λ _ v, config_value v = true) m)
  then Some m else None.

(** [{ ...a, ...b }]: the properties of [b] replace those of [a]. *)
Definition spread (a b : gmap string JsVal) : gmap string JsVal := b ∪ a.

(** [if (zvui.geoip)]: [false] and [undefined] are falsy, [true] and every
    object are truthy. *)
Definition truthy_geoip (g : option Geoip) : option Geoip :=
  match g with
  | Some (GeoipBool false) | None => None
  | Some g => Some g
  end.

(** [if (zvui.humanize)] *)
Definition truthy_humanize (h : option Humanize) : bool :=
  match h with
  | Some (HumanizeBool b) => b
  | Some (HumanizeNumber q) => truthy_num q
  | None => false
  end.

Section with_host.
Context `{Host}.

(** "Set geolocation if required." *)
Definition geoip_step (zvui : CamoufoxLaunchOptions)
    (vaildatedExecutablePath : string) (mainConfig : gmap string JsVal)
  : IO (gmap string JsVal) :=
  match truthy_geoip (geoip zvui) with
  | Some g =>
      publicIP ← getPublicIP g (Options.proxy zvui);
      let mainConfig :=
        match if_truthy (ipv4 publicIP) with
        | Some v4 => addToConfig mainConfig "webrtc:ipv4" (JStr v4)
        | None => mainConfig
        end in
      let mainConfig :=
        match if_truthy (ipv6 publicIP) with
        | Some v6 => addToConfig mainConfig "webrtc:ipv6" (JStr v6)
        | None => mainConfig
        end in
      geoData ← getGeolocationAndLocale publicIP vaildatedExecutablePath;
      let mainConfig :=
        addToConfig mainConfig "geolocation:longitude" (JNum (longitude geoData)) in
      let mainConfig :=
        addToConfig mainConfig "geolocation:latitude" (JNum (latitude geoData)) in
      let mainConfig :=
        addToConfig mainConfig "geolocation:accuracy" (JNum (accuracy geoData)) in
      let mainConfig :=
        addToConfig mainConfig "locale:all" (JStr (locales geoData)) in
      match if_truthy (timezone geoData) with
      | Some tz => mret (addToConfig mainConfig "timezone" (JStr tz))
      | None => mret mainConfig
      end
  | None => mret mainConfig
  end.

(** "If enabled set the humanize option." *)
Definition humanize_step (zvui : CamoufoxLaunchOptions)
    (mainConfig : gmap string JsVal) : gmap string JsVal :=
  if truthy_humanize (humanize zvui) then
    let mainConfig := addToConfig mainConfig "humanize" (JBool true) in
    match humanize zvui with
    | Some (HumanizeNumber q) => addToConfig mainConfig "humanize:maxTime" (JNum q)
    | _ => mainConfig
    end
  else mainConfig.

(** "If enabled set firefoxPrefs config to cache previous pages, ..." *)
Definition cache_step (zvui : CamoufoxLaunchOptions)
    (firefoxPrefs : gmap string JsVal) : gmap string JsVal :=
  if default false (enableCache zvui) then
    let firefoxPrefs :=
      addToConfig firefoxPrefs "browser.sessionhistory.max_entries" (JNum (10 # 1)) in
    let firefoxPrefs :=
      addToConfig firefoxPrefs "browser.sessionhistory.max_total_viewers" (JNum (-1 # 1)) in
    let firefoxPrefs :=
      addToConfig firefoxPrefs "browser.cache.memory.enable" (JBool true) in
    let firefoxPrefs :=
      addToConfig firefoxPrefs "browser.cache.disk_cache_ssl" (JBool true) in
    addToConfig firefoxPrefs "browser.cache.disk.smart_size.enabled" (JBool true)
  else firefoxPrefs.

(** [safeParse] followed by [throw new Error(z.prettifyError(...))]. *)
Definition checked (m : gmap string JsVal) : IO (gmap string JsVal) :=
  match configCheck m with
  | Some data => mret data
  | None => throw ZodError
  end.

(** The function from [const zvui = userInput.data] to its end: what it
    does with a validated input. *)
Definition assemble (zvui : CamoufoxLaunchOptions) : IO Playwright.LaunchOptions :=
  vaildatedExecutablePath ← launchPath (Options.executablePath zvui);
  let mainConfig : gmap string JsVal := ∅ in
  let firefoxPrefs : gmap string JsVal := ∅ in
  let headlessMode := default true (Options.headless zvui) in
  let proxySettings := Options.proxy zvui in
  mainConfig ← geoip_step zvui vaildatedExecutablePath mainConfig;
  let mainConfig := humanize_step zvui mainConfig in
  let firefoxPrefs := cache_step zvui firefoxPrefs in
  finalMainConfig ← checked mainConfig;
  finalFirefoxPrefs ← checked firefoxPrefs;
  finalNodeEnv ← checked (JStr <$> process_env);
  let envVars := spread finalMainConfig finalNodeEnv in
  mret {| Playwright.executablePath := vaildatedExecutablePath;
          Playwright.env := envVars;
          Playwright.proxy := proxySettings;
          Playwright.firefoxUserPrefs := finalFirefoxPrefs;
          Playwright.headless := headlessMode |}.

(** [safeParse] has no [catch]: what the schema throws leaves the function
    as it is; a parse that ends with issues throws their prettified text;
    a parsed value goes on to the assembly. *)
Definition camoufoxLaunchOptions (raw : RawOptions) : IO Playwright.LaunchOptions :=
  match zodCamoufoxLaunchOptions (raw_object raw) with
  | inl e => throw e
  | inr None => throw ZodError
  | inr (Some zvui) => assemble zvui
  end.

End with_host.
End Main.
Export Main.

(** ** A reference host for closed examples *)

Module Sample.

Definition is_digit (c : ascii) : bool :=
  let n := nat_of_ascii c in Nat.leb 48 n && Nat.leb n 57.

Definition is_alpha (c : ascii) : bool :=
  let n := nat_of_ascii c in
  (Nat.leb 65 n && Nat.leb n 90) || (Nat.leb 97 n && Nat.leb n 122).

Definition is_hex (c : ascii) : bool :=
  let n := nat_of_ascii c in
  is_digit c || (Nat.leb 65 n && Nat.leb n 70) || (Nat.leb 97 n && Nat.leb n 102).

Definition all_chars (p : ascii → bool) (s : string) : bool :=
  forallb p (list_ascii_of_string s).

Definition decimal (s : string) : nat :=
  fold_left (λ acc c, 10 * acc + (nat_of_ascii c - 48)) (list_ascii_of_string s) 0.

(** One octet of a dotted quad: one to three digits, no leading zero, at
    most 255. *)
Definition octet (s : string) : bool :=
  if all_chars is_digit s
     && Nat.leb 1 (String.length s) && Nat.leb (String.length s) 3
     && (Nat.eqb (String.length s) 1 || negb (String.prefix "0" s))
  then Nat.leb (decimal s) 255
  else false.

(** Dotted-quad IPv4 literals. *)
Definition ipv4_literal (s : string) : bool :=
  let parts := split_char "."%char s in
  Nat.eqb (length parts) 4 && forallb octet parts.

Definition hex_group (s : string) : bool :=
  all_chars is_hex s && Nat.leb 1 (String.length s) && Nat.leb (String.length s) 4.

(** A leading ["::"] shows as two empty segments: keep one of them.  A
    single leading colon is not allowed. *)
Definition drop_leading (segs : list string) : option (list string) :=
  match segs with
  | "" :: "" :: rest => Some ("" :: rest)
  | "" :: _ => None
  | _ => Some segs
  end.

(** IPv6 literals: eight groups, or fewer with one ["::"]. *)
Definition ipv6_literal (s : string) : bool :=
  match drop_leading (split_char ":"%char s) with
  | None => false
  | Some segs =>
      match drop_leading (rev segs) with
      | None => false
      | Some segs =>
          let groups := filter (λ g, g ≠ "") segs in
          let gaps := length segs - length groups in
          forallb hex_group groups
          && ((Nat.eqb gaps 0 && Nat.eqb (length groups) 8)
              || (Nat.eqb gaps 1 && Nat.leb (length groups) 7))
      end
  end.

Definition is_alnum (c : ascii) : bool := is_alpha c || is_digit c.

Definition is_label_char (c : ascii) : bool :=
  is_alnum c || Ascii.eqb c "-"%char.

(** A label: 1 to 63 letters, digits or hyphens, no hyphen at either end. *)
Definition label (s : string) : bool :=
  match list_ascii_of_string s with
  | [] => false
  | c :: cs =>
      is_alnum c && is_alnum (default c (last cs))
      && forallb is_label_char cs && Nat.leb (length cs) 62
  end.

(** Domain names: one or more labels, each followed by a dot, then a
    top-level name of at least two letters. *)
Definition domain_name (s : string) : bool :=
  let parts := split_char "."%char s in
  match rev parts with
  | tld :: (_ :: _) as labels =>
      all_chars is_alpha tld && Nat.leb 2 (String.length tld)
      && forallb label labels
  | _ => false
  end.

Fixpoint join_with (sep : string) (parts : list string) : string :=
  match parts with
  | [] => ""
  | [p] => p
  | p :: ps => p +:+ sep +:+ join_with sep ps
  end.

(** POSIX paths: [dir] is everything before the last component. *)
Definition posix_parse (p : string) : ParsedPath :=
  {| dir := join_with "/" (removelast (split_char "/"%char p)) |}.

Definition posix_join (parts : list string) : string := join_with "/" parts.

(** A URL is [scheme://rest]; only the scheme is read. *)
Definition url_of (s : string) : option URL :=
  match split_char ":"%char s with
  | scheme :: rest :: _ =>
      if all_chars is_alnum scheme && truthy_str scheme && String.prefix "//" rest
      then Some {| protocol := scheme +:+ ":"; port := ""; href := s |}
      else None
  | _ => None
  end.

Definition assoc {V} (k : string) (l : list (string * V)) : option V :=
  snd <$> find (λ kv, String.eqb k kv.1) l.

(** The single database that opens: the file content ["mmdb"]. *)
Definition reader (db : list (string * MmdbRecord)) (buffer : string)
  : option (string → option MmdbRecord) :=
  if String.eqb buffer "mmdb" then Some (λ ip, assoc ip db) else None.

(** A Linux host with home [/home/u], given its environment, its files,
    the answers of the detection services and the database records. *)
Definition host (env : list (string * string)) (files : list (string * FileKind))
    (net : list (string * Fetch)) (db : list (string * MmdbRecord)) : Host :=
  {| z_ipv4 := ipv4_literal;
     z_ipv6 := ipv6_literal;
     z_regexes_domain := domain_name;
     URL_new := url_of;
     path_parse := posix_parse;
     path_resolve := posix_join;
     path_join := posix_join;
     os_homedir := "/home/u";
     osName := linux;
     process_env := list_to_map env;
     fs_stat := λ p, assoc p files;
     fs_readFile := λ p, match assoc p files with
                         | Some RegularFile => Some "mmdb"
                         | _ => None
                         end;
     Reader_new := reader db;
     clm_getCountryByAlpha2 := λ iso, assoc iso [("US", ["en-US"; "es-US"]); ("DE", ["de-DE"])];
     ky_get := λ _ url, default Rejected (assoc url net) |}.

(** The default installation, as [launchPath] looks for it. *)
Definition installed : list (string * FileKind) :=
  [ ("/home/u/.cache", Directory);
    ("/home/u/.cache/camoufox-bin", RegularFile);
    ("/home/u/.cache/GeoLite2-City.mmdb", RegularFile) ].

Definition new_york : MmdbRecord :=
  {| location := Some {| loc_longitude := Some (-74 # 1);
                         loc_latitude := Some (407 # 10);
                         accuracy_radius := Some (20 # 1);
                         time_zone := Some "America/New_York" |};
     country := Some {| iso_code := "US" |} |}.

Definition line_feed : string := String (ascii_of_nat 10) "".

(** Six answering services: two are not OK, one sends no address, and the
    others send an IPv4 or an IPv6 address followed by a line feed. *)
Definition answers : list (string * Fetch) :=
  [ ("https://checkip.amazonaws.com", Responded true ("8.8.8.8" +:+ line_feed));
    ("https://icanhazip.com", Responded true "<html>busy</html>");
    ("https://ifconfig.co/ip", Responded true ("2001:db8::1" +:+ line_feed));
    ("https://ipecho.net/plain", Responded false "8.8.4.4");
    ("https://ipinfo.io/ip", Responded true "8.8.8.8") ].

(** The first service of the list answers with a response that is not OK. *)
Definition first_not_ok : Host :=
  host [] installed (("https://api.ipify.org", Responded false "") :: answers)
       [("8.8.8.8", new_york)].

(** The request to the first service of the list rejects. *)
Definition first_rejects : Host :=
  host [] installed answers [("8.8.8.8", new_york)].

(** The installation without its database file. *)
Definition no_database : Host :=
  host [] [ ("/home/u/.cache", Directory);
            ("/home/u/.cache/camoufox-bin", RegularFile) ]
       [] [("8.8.8.8", new_york)].


(** [{humanize: true}] *)
Definition humanize_only : RawOptions :=
  {| raw_headless := JUndefined; raw_proxy := JUndefined; raw_geoip := JUndefined;
     raw_humanize := JBool true; raw_enableCache := JUndefined;
     raw_executablePath := JUndefined |}.


(** [{enableCache: true}] *)
Definition cache_only : RawOptions :=
  {| raw_headless := JUndefined; raw_proxy := JUndefined; raw_geoip := JUndefined;
     raw_humanize := JUndefined; raw_enableCache := JBool true;
     raw_executablePath := JUndefined |}.

(** The validated value the schema is written to give for it. *)
Definition cache_only_zvui : CamoufoxLaunchOptions :=
  {| Options.headless := None; Options.proxy := None; geoip := None;
     humanize := None; enableCache := Some true;
     Options.executablePath := None |}.

(** The proxy object [{server, bypass: "a.com, b.com"}]. *)
Definition spaced_bypass : gmap string JsVal :=
  <["server" := JStr "http://proxy.example.com:3128"]>
  (<["bypass" := JStr "a.com, b.com"]> ∅).

(** [{proxy: {server}}] and no [geoip]. *)
Definition proxy_only : RawOptions :=
  {| raw_headless := JUndefined;
     raw_proxy := JObj (<["server" := JStr "http://proxy.example.com:3128"]> ∅);
     raw_geoip := JUndefined; raw_humanize := JUndefined;
     raw_enableCache := JUndefined; raw_executablePath := JUndefined |}.

End Sample.

(** ** Vocabulary of the specification *)

Module Vocabulary.

(** The character [c] occurs in [s]. *)
Fixpoint has_char (c : ascii) (s : string) : bool :=
  match s with
  | EmptyString => false
  | String c' r => Ascii.eqb c' c || has_char c r
  end.

(** A bypass list with a space right after or right before a comma. *)
Definition space_next_to_comma (s : string) : Prop :=
  ∃ pre post, s = pre +:+ ", " +:+ post ∨ s = pre +:+ " ," +:+ post.

(** The five cache-tuning preferences of the orchestrator. *)
Definition cache_prefs : gmap string JsVal :=
  <["browser.sessionhistory.max_entries" := JNum (10 # 1)]>
  (<["browser.sessionhistory.max_total_viewers" := JNum (-1 # 1)]>
  (<["browser.cache.memory.enable" := JBool true]>
  (<["browser.cache.disk_cache_ssl" := JBool true]>
  (<["browser.cache.disk.smart_size.enabled" := JBool true]> ∅)))).

Definition cache_keys : gset string :=
  {[ "browser.sessionhistory.max_entries";
     "browser.sessionhistory.max_total_viewers";
     "browser.cache.memory.enable";
     "browser.cache.disk_cache_ssl";
     "browser.cache.disk.smart_size.enabled" ]}.

(** The keys the orchestrator writes into the engine-setting map. *)
Definition engine_keys : list string :=
  [ "webrtc:ipv4"; "webrtc:ipv6"; "geolocation:longitude"; "geolocation:latitude";
    "geolocation:accuracy"; "locale:all"; "timezone"; "humanize"; "humanize:maxTime" ].

Section with_host.
Context `{Host}.

(** A [ResolvedIP] with at least one family holding a literal of that
    family. *)
Definition resolved (r : ipOutputObjectType) : Prop :=
  (∃ s, ipv4 r = Some s ∧ z_ipv4 s = true)
  ∨ (∃ s, ipv6 r = Some s ∧ z_ipv6 s = true).

(** The invariant of the detection loop: both sets only hold literals of
    their family. *)
Definition literals (sets : list string * list string) : Prop :=
  Forall (λ s, z_ipv4 s = true) sets.1 ∧ Forall (λ s, z_ipv6 s = true) sets.2.

(** The engine-setting map of an assembly of the validated input [zvui]
    that found the executable at [exe]: [mainConfig] as it stands when it
    is merged with the process environment. *)
Definition engine_settings (zvui : CamoufoxLaunchOptions) (exe : string)
    (mainConfig : gmap string JsVal) : Prop :=
  ∃ afterGeoip,
    result (geoip_step zvui exe ∅) = inr afterGeoip
    ∧ mainConfig = humanize_step zvui afterGeoip.


End with_host.

(** "After [set(m, k, v1); set(m, k, v2)] the binding [m[k]] equals [v1]",
    for every map, key and values. *)
Definition second_set_reads_first : Prop :=
  ∀ (m : gmap string JsVal) (k : string) (v1 v2 : JsVal),
    addToConfig (addToConfig m k v1) k v2 !! k = Some v1.

End Vocabulary.
Export Vocabulary.

(** ** Vocabulary of the further properties *)

Module Further.

(** The keys of the geolocation block of the orchestrator. *)
Definition geo_keys : list string :=
  [ "webrtc:ipv4"; "webrtc:ipv6"; "geolocation:longitude"; "geolocation:latitude";
    "geolocation:accuracy"; "locale:all"; "timezone" ].

(** The declared keys of a proxy object. *)
Definition proxy_shape : list string := ["server"; "username"; "password"; "bypass"].

(** The event is a request to one of the detection services. *)
Definition is_request (e : Event) : bool :=
  match e with EvHttpGet _ => true | _ => false end.

(** Every value of the map is a string, a number or a boolean. *)
Definition scalars (m : gmap string JsVal) : Prop :=
  map_Forall (λ _ v, config_value v = true) m.

(** The first value of [xs] that matches [pattern]. *)
Definition first_match (pattern : string → bool) (xs : list string) : option string :=
  head (List.filter pattern xs).

(** What a [Set] holds after the matching values of [xs] were added in
    order to [set]. *)
Definition collect (pattern : string → bool) (xs set : list string) : list string :=
  fold_left (λ set x, if pattern x then set_add x set else set) xs set.

Section with_host.
Context `{Host}.

(** The trimmed bodies of the responses that are OK, in service order. *)
Definition bodies (customKy : Dispatcher) (services : list string) : list string :=
  omap (λ service,
          match ky_get customKy service with
          | Responded true text => Some (trim text)
          | _ => None
          end) services.

(** Every service of the list answers: no request rejects. *)
Definition all_respond (customKy : Dispatcher) (services : list string) : Prop :=
  Forall (λ service, ky_get customKy service ≠ Rejected) services.

(** The engine-setting map the geolocation block builds from a resolved
    address and its geo data. *)
Definition geo_settings (publicIP : ipOutputObjectType) (geoData : GeoLocale)
  : gmap string JsVal :=
  let add (key : string) (value : option JsVal) (m : gmap string JsVal) :=
    match value with Some v => <[key := v]> m | None => m end in
  add "timezone" (JStr <$> if_truthy (timezone geoData))
  (add "locale:all" (Some (JStr (locales geoData)))
  (add "geolocation:accuracy" (Some (JNum (accuracy geoData)))
  (add "geolocation:latitude" (Some (JNum (latitude geoData)))
  (add "geolocation:longitude" (Some (JNum (longitude geoData)))
  (add "webrtc:ipv6" (JStr <$> if_truthy (ipv6 publicIP))
  (add "webrtc:ipv4" (JStr <$> if_truthy (ipv4 publicIP)) ∅)))))).

(** The descriptor assembled from a validated input, an executable path
    and an engine-setting map. *)
Definition descriptor (zvui : CamoufoxLaunchOptions) (exe : string)
    (mainConfig : gmap string JsVal) : Playwright.LaunchOptions :=
  {| Playwright.executablePath := exe;
     Playwright.env := spread (humanize_step zvui mainConfig) (JStr <$> process_env);
     Playwright.proxy := Options.proxy zvui;
     Playwright.firefoxUserPrefs := cache_step zvui ∅;
     Playwright.headless := default true (Options.headless zvui) |}.

End with_host.
End Further.
Export Further.

(** ** Inputs and hosts of the further closed instances *)

Module Cases.

Definition ftp_proxy : ProxyConfig :=
  {| server := "ftp://files.example.com"; username := None; password := None;
     bypass := None |}.

Definition socks_proxy : ProxyConfig :=
  {| server := "socks5://socks.example.com"; username := Some "u";
     password := Some "p"; bypass := None |}.

(** A proxy object with a key the schema does not declare. *)
Definition proxy_with_port : gmap string JsVal :=
  <["server" := JStr "http://proxy.example.com"]> (<["port" := JNum (3128 # 1)]> ∅).

(** A well-formed proxy object. *)
Definition proxy_object : gmap string JsVal :=
  <["server" := JStr "http://proxy.example.com:3128"]>
  (<["bypass" := JStr "a.com,b.org"]> ∅).

(** A validated input with the explicit pair [{ipv4: "8.8.8.8"}]. *)
Definition explicit_pair_zvui : CamoufoxLaunchOptions :=
  {| Options.headless := None; Options.proxy := None;
     geoip := Some (GeoipObject {| in_ipv4 := Some "8.8.8.8"; in_ipv6 := None |});
     humanize := None; enableCache := None; Options.executablePath := None |}.

(** The validated value the schema is written to give for
    [{geoip: true, humanize: 2.5, enableCache: true}]. *)
Definition end_to_end_zvui : CamoufoxLaunchOptions :=
  {| Options.headless := None; Options.proxy := None;
     geoip := Some (GeoipBool true); humanize := Some (HumanizeNumber (5 # 2));
     enableCache := Some true; Options.executablePath := None |}.

(** A validated input with [headless: false] and nothing else. *)
Definition headed_zvui : CamoufoxLaunchOptions :=
  {| Options.headless := Some false; Options.proxy := None; geoip := None;
     humanize := None; enableCache := None; Options.executablePath := None |}.

(** Six services that all answer OK, with an address and sometimes a line
    feed after it. *)
Definition ok_answers : list (string * Fetch) :=
  [ ("https://api.ipify.org", Responded true "8.8.8.8");
    ("https://checkip.amazonaws.com", Responded true ("8.8.8.8" +:+ Sample.line_feed));
    ("https://icanhazip.com", Responded true ("2001:db8::1" +:+ Sample.line_feed));
    ("https://ifconfig.co/ip", Responded true "8.8.8.8");
    ("https://ipecho.net/plain", Responded true "8.8.8.8");
    ("https://ipinfo.io/ip", Responded true "8.8.8.8") ].

(** The default installation on a network where they do. *)
Definition all_answer : Host :=
  Sample.host [] Sample.installed ok_answers [("8.8.8.8", Sample.new_york)].

(** A database record whose location carries no coordinates. *)
Definition no_coordinates : MmdbRecord :=
  {| location := Some {| loc_longitude := None; loc_latitude := None;
                         accuracy_radius := Some (1000 # 1);
                         time_zone := Some "Europe/Berlin" |};
     country := Some {| iso_code := "DE" |} |}.

(** The default installation, with that record for [8.8.8.8]. *)
Definition sparse_database : Host :=
  Sample.host [] Sample.installed [] [("8.8.8.8", no_coordinates)].

(** A host on which the parent of the default directory is a file. *)
Definition cache_is_a_file : Host :=
  Sample.host [] [("/home/u/.cache", RegularFile)] [] [].

(** A host without the parent of the default directory. *)
Definition nothing_installed : Host := Sample.host [] [] [] [].

End Cases.

(** * Theorems *)

(** ** The monad *)

Lemma io_bind_ret {A B} (a : A) (f : A → IO B) : (mret a ≫= f) = f a.
Proof. unfold mret, mbind, io_mret, io_mbind, io_ret, io_bind. simpl. by destruct (f a). Qed.

Lemma io_bind_throw {A B} (e : Error) (f : A → IO B) : (throw e ≫= f) = throw e.
Proof. reflexivity. Qed.

Lemma io_result_bind {A B} (m : IO A) (f : A → IO B) :
  result (m ≫= f) = match result m with inl e => inl e | inr a => result (f a) end.
Proof. unfold result, mbind, io_mbind, io_bind. by destruct m as [t [e|a]]. Qed.

Lemma io_trace_bind {A B} (m : IO A) (f : A → IO B) :
  trace (m ≫= f)
  = match result m with inl _ => trace m | inr a => (trace m ++ trace (f a))%list end.
Proof. unfold trace, result, mbind, io_mbind, io_bind. by destruct m as [t [e|a]]. Qed.

Lemma io_result_bind_inr {A B} (m : IO A) (f : A → IO B) (b : B) :
  result (m ≫= f) = inr b ↔ ∃ a, result m = inr a ∧ result (f a) = inr b.
Proof.
  rewrite io_result_bind. destruct (result m) as [e|a].
  - split; [done | by intros (? & ? & ?)].
  - split; [by eauto | by intros (? & [= <-] & ?)].
Qed.

(** ** helper.ts *)

Lemma addToConfig_absent (m : gmap string JsVal) k v :
  js_in k m = false → addToConfig m k v = <[k := v]> m.
Proof. unfold addToConfig. by intros ->. Qed.

Lemma addToConfig_present (m : gmap string JsVal) k v :
  js_in k m = true → addToConfig m k v = m.
Proof. unfold addToConfig. by intros ->. Qed.

Lemma js_in_own (m : gmap string JsVal) k v : m !! k = Some v → js_in k m = true.
Proof.
  intros Hk. unfold js_in. apply orb_true_iff. left.
  apply bool_decide_eq_true. by exists v.
Qed.

Lemma js_in_addToConfig (m : gmap string JsVal) k v : js_in k (addToConfig m k v) = true.
Proof.
  destruct (js_in k m) eqn:Hin.
  - by rewrite addToConfig_present.
  - rewrite addToConfig_absent by done. eapply js_in_own, lookup_insert_eq.
Qed.

Lemma addToConfig_other (m : gmap string JsVal) k k' v :
  k ≠ k' → addToConfig m k v !! k' = m !! k'.
Proof.
  intros Hne. unfold addToConfig. destruct (js_in k m); simpl; [done |].
  by rewrite lookup_insert_ne.
Qed.

(** C4, as stated, fails: a key the map already holds keeps its old value,
    which need not be the value of the first of the two writes. *)
Lemma addToConfig_second_set_reads_first_fails : ¬ second_set_reads_first.
Proof.
  intros Hclaim.
  specialize (Hclaim {["k" := JNum (0 # 1)]} "k" (JNum (1 # 1)) (JNum (2 # 1))).
  vm_compute in Hclaim. discriminate Hclaim.
Qed.

(** C4, amended: after [addToConfig m k v1] followed by [addToConfig _ k v2]
    the second write has changed nothing; the binding at [k] is [v1] when
    [k in m] was false beforehand, and when it was true neither write
    changed the map. *)
Theorem addToConfig_first_write_wins (m : gmap string JsVal) (k : string) (v1 v2 : JsVal) :
  addToConfig (addToConfig m k v1) k v2 = addToConfig m k v1
  ∧ (js_in k m = false → addToConfig (addToConfig m k v1) k v2 !! k = Some v1)
  ∧ (js_in k m = true → addToConfig (addToConfig m k v1) k v2 = m).
Proof.
  assert (addToConfig (addToConfig m k v1) k v2 = addToConfig m k v1) as Hid
    by apply addToConfig_present, js_in_addToConfig.
  rewrite Hid. split; [done | split]; intros Hin.
  - rewrite addToConfig_absent by done. apply lookup_insert_eq.
  - by apply addToConfig_present.
Qed.

Lemma addToConfig_first_write_wins_witness :
  js_in "k" (∅ : gmap string JsVal) = false
  ∧ addToConfig (addToConfig ∅ "k" (JNum (1 # 1))) "k" (JNum (2 # 1)) !! "k"
    = Some (JNum (1 # 1))
  ∧ js_in "toString" (∅ : gmap string JsVal) = true
  ∧ addToConfig (addToConfig ∅ "toString" (JNum (1 # 1))) "toString" (JNum (2 # 1)) = ∅.
Proof.
  split; [reflexivity |]. split.
  - apply (addToConfig_first_write_wins ∅ "k" (JNum (1 # 1)) (JNum (2 # 1))).
    reflexivity.
  - split; [reflexivity |].
    apply (addToConfig_first_write_wins ∅ "toString" (JNum (1 # 1)) (JNum (2 # 1))).
    reflexivity.
Defined.

(** ** Strings *)

Lemma has_char_app c (a b : string) :
  has_char c (a +:+ b) = has_char c a || has_char c b.
Proof.
  induction a as [|c' a IH]; simpl; [done |].
  by rewrite IH, orb_assoc.
Qed.

Lemma space_next_to_comma_has_space s :
  space_next_to_comma s → has_char " "%char s = true.
Proof.
  intros (pre & post & [-> | ->]); rewrite !has_char_app; simpl;
    apply orb_true_iff; right; by rewrite ?orb_true_r.
Qed.

(** Every character other than the separator lands in a segment. *)
Lemma split_char_has_char sep c s :
  c ≠ sep → has_char c s = true →
  ∃ seg, seg ∈ split_char sep s ∧ has_char c seg = true.
Proof.
  intros Hne. induction s as [|c' s IH]; simpl; [done |].
  intros Hc. destruct (Ascii.eqb_spec c' sep) as [-> | Hsep].
  - destruct (Ascii.eqb_spec sep c) as [-> | _]; [done |].
    destruct (IH Hc) as (seg & Hseg & Hhas).
    exists seg. split; [by apply list_elem_of_further | done].
  - destruct (Ascii.eqb_spec c' c) as [-> | _]; simpl in Hc.
    + destruct (split_char sep s) as [|seg segs].
      * exists (String c EmptyString). split; [apply list_elem_of_here |].
        simpl. by rewrite Ascii.eqb_refl.
      * exists (String c seg). split; [apply list_elem_of_here |].
        simpl. by rewrite Ascii.eqb_refl.
    + destruct (IH Hc) as (seg & Hseg & Hhas).
      destruct (split_char sep s) as [|seg' segs]; [by apply elem_of_nil in Hseg |].
      apply elem_of_cons in Hseg as [-> | Hseg].
      * exists (String c' seg'). split; [apply list_elem_of_here |].
        simpl. by rewrite Hhas, orb_true_r.
      * exists seg. split; [by apply list_elem_of_further | done].
Qed.

(** ** main.ts: the input schema *)

Section schema.
Context `{Host}.

Lemma raw_object_strict raw props :
  raw_object raw = JObj props → strict shape props = true.
Proof.
  intros [= <-]. unfold strict, shape, raw_props. apply bool_decide_eq_true.
  rewrite !dom_insert_L, dom_empty_L. set_solver.
Qed.

Lemma raw_object_props raw props :
  raw_object raw = JObj props →
  prop "headless" props = raw_headless raw
  ∧ prop "proxy" props = raw_proxy raw
  ∧ prop "geoip" props = raw_geoip raw
  ∧ prop "humanize" props = raw_humanize raw
  ∧ prop "enableCache" props = raw_enableCache raw
  ∧ prop "executablePath" props = raw_executablePath raw.
Proof. intros [= <-]. unfold prop, raw_props. repeat split; by simplify_map_eq. Qed.

(** The table of the outer union cannot be built: its second option
    declares no value for [proxy].  Every object makes [safeParse] throw,
    whatever it holds. *)
Lemma safeParse_throws props :
  zodCamoufoxLaunchOptions (JObj props) = inl (InvalidUnionOption 1).
Proof. reflexivity. Qed.

(** Nor can the table of the union of the two address shapes: an object
    given as [geoip] makes its schema throw. *)
Lemma z_geoip_object_throws props :
  z_geoip (JObj props) = inl (InvalidUnionOption 0).
Proof. reflexivity. Qed.

(** A [geoip] that is no object never throws: a boolean is accepted and
    anything else ends with an issue. *)
Lemma z_geoip_not_object v :
  (∀ props, v ≠ JObj props) →
  z_geoip v = inr (GeoipBool <$> z_boolean v).
Proof.
  intros Hv. destruct v as [| |b|q|s|props]; try reflexivity.
  by destruct (Hv props).
Qed.

(** The orchestrator never gets past its first statement. *)
Lemma camoufoxLaunchOptions_throws raw :
  camoufoxLaunchOptions raw = ([], inl (InvalidUnionOption 1)).
Proof. reflexivity. Qed.

(** In the option that has a proxy, a missing [geoip] fails the parse. *)
Lemma has_proxy_variant_requires_geoip props :
  prop "geoip" props = JUndefined → has_proxy_variant props = inr None.
Proof.
  intros Hgeoip. unfold has_proxy_variant. rewrite Hgeoip.
  cbn [z_geoip z_boolean z_discriminatedUnion fmap option_fmap option_map].
  destruct (strict shape props); [| done].
  destruct (z_optional z_boolean (prop "headless" props)); [| done]. simpl.
  by destruct (z_proxy (prop "proxy" props)).
Qed.

(** A segment the domain pattern rejects fails the whole list. *)
Lemma bypass_refine_rejects s seg :
  seg ∈ split_comma s → z_regexes_domain seg = false → bypass_refine s = false.
Proof.
  intros Hseg Hrej. unfold bypass_refine.
  apply not_true_is_false. intros Hall.
  rewrite forallb_forall in Hall. apply list_elem_of_In in Hseg.
  specialize (Hall seg Hseg). congruence.
Qed.

Lemma z_proxy_requires_bypass props s :
  props !! "bypass" = Some (JStr s) → bypass_refine s = false →
  z_proxy (JObj props) = None.
Proof.
  intros Hbypass Hrefine.
  assert (prop "bypass" props = JStr s) as Hprop by (unfold prop; by rewrite Hbypass).
  assert (z_optional z_bypass (JStr s) = None) as Hnone
    by (unfold z_bypass; simpl; by rewrite Hrefine).
  unfold z_proxy. rewrite Hprop, Hnone.
  destruct (strict _ props); [| done].
  destruct (z_url (prop "server" props)); [| done]. simpl.
  destruct (z_optional z_string (prop "username" props)); [| done]. simpl.
  by destruct (z_optional z_string (prop "password" props)).
Qed.

(** An explicit pair accepted by either of the two address shapes has at
    least one family. *)
Lemma address_shapes_have_family v o :
  ipv4_required v = Some o ∨ ipv6_required v = Some o →
  is_Some (in_ipv4 o) ∨ is_Some (in_ipv6 o).
Proof.
  intros [H4 | H6].
  - left. unfold ipv4_required in H4.
    destruct v as [| | | | |props]; try done.
    destruct (strict _ props); [| done].
    destruct (z_format z_ipv4 (prop "ipv4" props)); [| done]. simpl in H4.
    destruct (z_optional (z_format z_ipv6) (prop "ipv6" props)); [| done].
    injection H4 as <-. by eexists.
  - right. unfold ipv6_required in H6.
    destruct v as [| | | | |props]; try done.
    destruct (strict _ props); [| done].
    destruct (z_optional (z_format z_ipv4) (prop "ipv4" props)); [| done]. simpl in H6.
    destruct (z_format z_ipv6 (prop "ipv6" props)); [| done].
    injection H6 as <-. by eexists.
Qed.

(** C10: the bypass list is split on commas and each raw segment is
    matched untrimmed, so, the domain pattern admitting no space, a list
    with a space next to a comma fails the refinement, and the proxy
    object that carries it fails the validation of the proxy. *)
Theorem bypass_space_fails_validation (proxy : gmap string JsVal) (bypassList : string) :
  (∀ seg, has_char " "%char seg = true → z_regexes_domain seg = false) →
  space_next_to_comma bypassList →
  proxy !! "bypass" = Some (JStr bypassList) →
  bypass_refine bypassList = false
  ∧ z_proxy (JObj proxy) = None.
Proof.
  intros Hpattern Hspace Hbypass.
  assert (bypass_refine bypassList = false) as Hrefine.
  { apply space_next_to_comma_has_space in Hspace.
    destruct (split_char_has_char ","%char " "%char bypassList) as (seg & Hseg & Hhas);
      [done | done |].
    eapply bypass_refine_rejects; [exact Hseg | by apply Hpattern]. }
  split; [done |]. by eapply z_proxy_requires_bypass.
Qed.

End schema.

(** Unfolds the monad down to pairs of a trace and a result. *)
Ltac io_unfold :=
  unfold result, trace, mbind, mret, io_mbind, io_mret, io_bind, io_ret, throw,
    stat, readFile in *; simpl in *.

(** ** launchPath.ts *)

Section launch_path.
Context `{Host}.

(** The directory given to the check is parsed, its parent is inspected,
    and the executable is looked up in that parent. *)
Lemma checkIfCamoufoxIsInstalled_spec directory :
  let parent := dir (path_parse directory) in
  let exe := path_resolve [parent; camoufoxExecutable osName] in
  exe ≠ "" →
  checkIfCamoufoxIsInstalled directory
  = match fs_stat parent with
    | None => ([EvStat parent], inl (FsError parent))
    | Some Directory =>
        match fs_stat exe with
        | None => ([EvStat parent; EvStat exe], inl (FsError exe))
        | Some RegularFile => ([EvStat parent; EvStat exe], inr (Some exe))
        | Some _ => ([EvStat parent; EvStat exe], inr None)
        end
    | Some _ => ([EvStat parent], inr None)
    end.
Proof.
  intros parent exe Hexe. unfold checkIfCamoufoxIsInstalled, validatedExecutablePath.
  fold parent. fold exe. io_unfold.
  destruct (fs_stat parent) as [[]|]; simpl; try done.
  destruct (fs_stat exe) as [[]|]; simpl; try done.
  destruct exe; done.
Qed.

Lemma launchPath_spec customInstall :
  let parent := dir (path_parse (default defaultInstall (if_truthy customInstall))) in
  let exe := path_resolve [parent; camoufoxExecutable osName] in
  exe ≠ "" →
  launchPath customInstall
  = match fs_stat parent with
    | None => ([EvStat parent], inl (FsError parent))
    | Some Directory =>
        match fs_stat exe with
        | None => ([EvStat parent; EvStat exe], inl (FsError exe))
        | Some RegularFile => ([EvStat parent; EvStat exe], inr exe)
        | Some _ => ([EvStat parent; EvStat exe], inl CamoufoxNotInstalled)
        end
    | Some _ => ([EvStat parent], inl CamoufoxNotInstalled)
    end.
Proof.
  intros parent exe Hexe. unfold launchPath.
  assert (match if_truthy customInstall with
          | Some customInstall => checkIfCamoufoxIsInstalled customInstall
          | None => checkIfCamoufoxIsInstalled defaultInstall
          end
          = checkIfCamoufoxIsInstalled (default defaultInstall (if_truthy customInstall)))
    as -> by (by destruct (if_truthy customInstall)).
  rewrite checkIfCamoufoxIsInstalled_spec by done. fold parent. fold exe.
  io_unfold.
  destruct (fs_stat parent) as [[]|]; simpl; try done.
  destruct (fs_stat exe) as [[]|]; simpl; try done.
  destruct exe; done.
Qed.

End launch_path.

(** ** geoData.ts *)

Section geo_data.
Context `{Host}.

Lemma pickPubIP_spec ipObject :
  pickPubIP ipObject
  = match ipv4 ipObject, ipv6 ipObject with
    | Some v4, _ => ([], inr v4)
    | None, Some v6 => ([], inr v6)
    | None, None => ([], inl ValidIPRequired)
    end.
Proof. unfold pickPubIP. by destruct (ipv4 ipObject), (ipv6 ipObject). Qed.

Lemma pickPubIP_returns ipObject pubIP :
  result (pickPubIP ipObject) = inr pubIP → pickPubIP ipObject = mret pubIP.
Proof.
  rewrite pickPubIP_spec.
  destruct (ipv4 ipObject), (ipv6 ipObject); simpl; intros Hr; by simplify_eq.
Qed.

(** The resolver, past the choice of the address [pubIP], as a decision
    list over what the host answers. *)
Lemma getGeolocationAndLocale_spec ipObject directory pubIP :
  let mmdbFile := path_resolve [dir (path_parse directory); "GeoLite2-City.mmdb"] in
  result (pickPubIP ipObject) = inr pubIP →
  getGeolocationAndLocale ipObject directory
  = match fs_stat mmdbFile with
    | None => ([EvStat mmdbFile], inl (FsError mmdbFile))
    | Some RegularFile =>
        ([EvStat mmdbFile; EvReadFile mmdbFile],
         match fs_readFile mmdbFile with
         | None => inl (FsError mmdbFile)
         | Some buffer =>
             match Reader_new buffer with
             | None => inl ReaderError
             | Some reader =>
                 match reader pubIP with
                 | None => inl (NoGeoData pubIP)
                 | Some record =>
                     match location record, country record with
                     | Some location, Some country =>
                         match clm_getCountryByAlpha2 (iso_code country) with
                         | None => inl UnknownIsoCountryCode
                         | Some clmLocales =>
                             match loc_longitude location, loc_latitude location,
                                   accuracy_radius location with
                             | Some lon, Some lat, Some acc =>
                                 inr {| longitude := lon; latitude := lat;
                                        accuracy := acc;
                                        timezone := time_zone location;
                                        locales := join_comma_space clmLocales |}
                             | _, _, _ => inl ZodError
                             end
                         end
                     | _, _ => inl (NoGeoData pubIP)
                     end
                 end
             end
         end)
    | Some _ => ([EvStat mmdbFile], inl MmdbFileNotFound)
    end.
Proof.
  intros mmdbFile Hpick. unfold getGeolocationAndLocale. fold mmdbFile.
  rewrite (pickPubIP_returns ipObject pubIP Hpick).
  unfold newReader, geolocationAndLocaleObject_parse. io_unfold.
  destruct (fs_stat mmdbFile) as [[]|]; simpl; try done.
  destruct (fs_readFile mmdbFile) as [buffer|]; simpl; [| done].
  destruct (Reader_new buffer) as [reader|]; simpl; [| done].
  destruct (reader pubIP) as [record|]; simpl; [| done].
  destruct (location record) as [location|], (country record) as [country|];
    simpl; try done.
  destruct (clm_getCountryByAlpha2 _); simpl; [| done].
  by destruct (loc_longitude location), (loc_latitude location),
    (accuracy_radius location).
Qed.

(** The errors of the resolver that are its own, each under its
    condition: the database path exists but is no regular file; the
    lookup finds no record, or a record without location or country; the
    country's ISO code has no locales.  A path that does not exist is
    none of them: the rejection of [fs.stat] passes through. *)
Lemma getGeolocationAndLocale_errors ipObject directory pubIP :
  let mmdbFile := path_resolve [dir (path_parse directory); "GeoLite2-City.mmdb"] in
  result (pickPubIP ipObject) = inr pubIP →
  (∀ kind, fs_stat mmdbFile = Some kind → isFile kind = false →
     result (getGeolocationAndLocale ipObject directory) = inl MmdbFileNotFound)
  ∧ (fs_stat mmdbFile = None →
     result (getGeolocationAndLocale ipObject directory) = inl (FsError mmdbFile))
  ∧ (∀ buffer reader,
       fs_stat mmdbFile = Some RegularFile → fs_readFile mmdbFile = Some buffer →
       Reader_new buffer = Some reader → reader pubIP = None →
       result (getGeolocationAndLocale ipObject directory) = inl (NoGeoData pubIP))
  ∧ (∀ buffer reader record location country,
       fs_stat mmdbFile = Some RegularFile → fs_readFile mmdbFile = Some buffer →
       Reader_new buffer = Some reader → reader pubIP = Some record →
       Host.location record = Some location → Host.country record = Some country →
       clm_getCountryByAlpha2 (iso_code country) = None →
       result (getGeolocationAndLocale ipObject directory) = inl UnknownIsoCountryCode).
Proof.
  intros mmdbFile Hpick.
  rewrite (getGeolocationAndLocale_spec ipObject directory pubIP Hpick). fold mmdbFile.
  repeat split.
  - intros kind -> Hkind. by destruct kind.
  - by intros ->.
  - by intros buffer reader -> -> -> ->.
  - by intros buffer reader record location country -> -> -> -> -> -> ->.
Qed.

(** C9: [launchPath] takes the directory it is given (the caller's, or
    the platform default), drops its last component and looks for the
    platform's executable in what remains; it returns that path exactly
    when the remainder is a directory and the path a regular file.  The
    geo-locale resolver does the same with the path it is given and the
    name [GeoLite2-City.mmdb]: the first thing it inspects is that file
    beside the executable, and it succeeds only when it is a regular
    file. *)
Theorem launchPath_looks_beside_directory (customInstall : option string)
    (ipObject : ipOutputObjectType) (pubIP : string) :
  let D := default defaultInstall (if_truthy customInstall) in
  let parent := dir (path_parse D) in
  let exe := path_resolve [parent; camoufoxExecutable osName] in
  let mmdbFile := path_resolve [dir (path_parse exe); "GeoLite2-City.mmdb"] in
  exe ≠ "" →
  result (pickPubIP ipObject) = inr pubIP →
  (∀ p, result (launchPath customInstall) = inr p
        ↔ p = exe ∧ fs_stat parent = Some Directory ∧ fs_stat exe = Some RegularFile)
  ∧ head (trace (launchPath customInstall)) = Some (EvStat parent)
  ∧ (fs_stat parent = Some Directory →
     trace (launchPath customInstall) = [EvStat parent; EvStat exe])
  ∧ head (trace (getGeolocationAndLocale ipObject exe)) = Some (EvStat mmdbFile)
  ∧ (∀ geoData, result (getGeolocationAndLocale ipObject exe) = inr geoData →
                fs_stat mmdbFile = Some RegularFile).
Proof.
  intros D parent exe mmdbFile Hexe Hpick.
  rewrite (launchPath_spec customInstall Hexe).
  rewrite (getGeolocationAndLocale_spec ipObject exe pubIP Hpick).
  fold D. fold parent. fold exe. fold mmdbFile.
  split; [| split; [| split; [| split]]].
  - intros p. split.
    + destruct (fs_stat parent) as [[]|]; simpl; try done.
      destruct (fs_stat exe) as [[]|]; simpl; try done. by intros [= <-].
    + by intros (-> & -> & ->).
  - destruct (fs_stat parent) as [[]|]; simpl; try done.
    by destruct (fs_stat exe) as [[]|].
  - intros ->. by destruct (fs_stat exe) as [[]|].
  - by destruct (fs_stat mmdbFile) as [[]|].
  - intros geoData. by destruct (fs_stat mmdbFile) as [[]|].
Qed.

End geo_data.

(** ** proxy.ts *)

Section public_ip.
Context `{Host}.

(** What one iteration of the detection loop does with each outcome of
    its request. *)
Lemma detect_spec customKy sets service :
  detect customKy sets service
  = ([EvHttpGet service],
     match ky_get customKy service with
     | Rejected => inl (KyError service)
     | Responded false _ => inr sets
     | Responded true text =>
         inr (if z_ipv4 (trim text) then set_add (trim text) sets.1 else sets.1,
              if z_ipv6 (trim text) then set_add (trim text) sets.2 else sets.2)
     end).
Proof.
  unfold detect, get. io_unfold.
  by destruct (ky_get customKy service) as [|[] text].
Qed.

(** A response that is not OK, or whose trimmed body is a literal of
    neither family, leaves both sets as they were. *)
Lemma detect_skips customKy sets service ok text :
  ky_get customKy service = Responded ok text →
  ok = false ∨ (z_ipv4 (trim text) = false ∧ z_ipv6 (trim text) = false) →
  detect customKy sets service = ([EvHttpGet service], inr sets).
Proof.
  intros Hget Hskip. rewrite detect_spec, Hget.
  destruct ok; [| done]. destruct Hskip as [? | [-> ->]]; [done |].
  by destruct sets.
Qed.

(** After a skipped service the loop goes on with the next one. *)
Lemma detect_loop_skips customKy sets service rest ok text :
  ky_get customKy service = Responded ok text →
  ok = false ∨ (z_ipv4 (trim text) = false ∧ z_ipv6 (trim text) = false) →
  detect_loop customKy (service :: rest) sets
  = (EvHttpGet service :: trace (detect_loop customKy rest sets),
     result (detect_loop customKy rest sets)).
Proof.
  intros Hget Hskip. simpl.
  rewrite (detect_skips customKy sets service ok text Hget Hskip).
  io_unfold. by destruct (detect_loop customKy rest sets) as [t [e|s]].
Qed.

(** A request whose promise rejects ends the loop there and then: the
    services after it are never asked. *)
Lemma detect_loop_rejected customKy sets service rest :
  ky_get customKy service = Rejected →
  detect_loop customKy (service :: rest) sets
  = ([EvHttpGet service], inl (KyError service)).
Proof. intros Hget. simpl. rewrite detect_spec, Hget. by io_unfold. Qed.

Lemma set_add_Forall (P : string → Prop) x s :
  P x → Forall P s → Forall P (set_add x s).
Proof.
  intros Hx Hs. unfold set_add. case_bool_decide; [done |].
  apply Forall_app. split; [done | by apply Forall_singleton].
Qed.

Lemma detect_literals customKy sets service sets' :
  literals sets → result (detect customKy sets service) = inr sets' →
  literals sets'.
Proof.
  intros [H4 H6]. rewrite detect_spec. unfold result. simpl.
  destruct (ky_get customKy service) as [|[] text]; intros Hr; simplify_eq; [| done].
  split; simpl.
  - destruct (z_ipv4 (trim text)) eqn:Hlit; [by apply set_add_Forall | done].
  - destruct (z_ipv6 (trim text)) eqn:Hlit; [by apply set_add_Forall | done].
Qed.

Lemma detect_loop_literals customKy services sets sets' :
  literals sets → result (detect_loop customKy services sets) = inr sets' →
  literals sets'.
Proof.
  revert sets. induction services as [|service rest IH]; intros sets Hlit; simpl.
  - unfold result. simpl. by intros [= <-].
  - rewrite io_result_bind_inr. intros (mid & Hmid & Hrest).
    eapply IH; [| exact Hrest]. by eapply detect_literals.
Qed.

Lemma ipOutputObject_parse_returns o r :
  result (ipOutputObject_parse o) = inr r → r = o.
Proof.
  unfold ipOutputObject_parse.
  destruct (_ && _); unfold result; simpl; intros Hr; by simplify_eq.
Qed.

Lemma if_truthy_literal (pattern : string → bool) s :
  pattern "" = false → pattern s = true → if_truthy (Some s) = Some s.
Proof. intros Hempty Hs. destruct s; simpl; [congruence | done]. Qed.

(** The explicit branch: each family of a well-formed pair is carried
    through, and nothing is asked of the network. *)
Lemma getPublicIP_object (v4 v6 : option string) proxy :
  z_ipv4 "" = false → z_ipv6 "" = false →
  optional_ok z_ipv4 v4 = true → optional_ok z_ipv6 v6 = true →
  getPublicIP (GeoipObject {| in_ipv4 := v4; in_ipv6 := v6 |}) proxy
  = ([], inr {| ipv4 := v4; ipv6 := v6 |}).
Proof.
  intros He4 He6 H4 H6. unfold getPublicIP, ipInputObject_safeParse. simpl.
  rewrite H4, H6. simpl.
  assert (if_truthy v4 = v4) as ->.
  { destruct v4 as [s|]; [| done]. by apply (if_truthy_literal z_ipv4). }
  assert (if_truthy v6 = v6) as ->.
  { destruct v6 as [s|]; [| done]. by apply (if_truthy_literal z_ipv6). }
  unfold ipOutputObject_parse. simpl. by rewrite H4, H6.
Qed.

(** C7: the explicit pair [{ipv4: "1.2.3.4"}] comes back as
    [{ipv4: "1.2.3.4", ipv6: false}], and every explicit pair of literals
    comes back with its present families unchanged and its absent ones
    [false]; the trace of I/O is empty, so no request is made.  (The
    patterns of zod match no empty string.) *)
Theorem getPublicIP_explicit_passthrough (v4 v6 : option string)
    (proxy : option ProxyConfig) :
  z_ipv4 "" = false → z_ipv6 "" = false →
  (z_ipv4 "1.2.3.4" = true →
   getPublicIP (GeoipObject {| in_ipv4 := Some "1.2.3.4"; in_ipv6 := None |}) proxy
   = ([], inr {| ipv4 := Some "1.2.3.4"; ipv6 := None |}))
  ∧ (optional_ok z_ipv4 v4 = true → optional_ok z_ipv6 v6 = true →
     getPublicIP (GeoipObject {| in_ipv4 := v4; in_ipv6 := v6 |}) proxy
     = ([], inr {| ipv4 := v4; ipv6 := v6 |})).
Proof.
  intros He4 He6. split.
  - intros Hlit. by apply getPublicIP_object.
  - by apply getPublicIP_object.
Qed.

(** C6: whatever [getPublicIP] returns, for [true] or for an explicit
    pair with at least one family (as the schema demands), holds a
    literal of its family in at least one field; both are never [false].
    (The patterns of zod match no empty string.) *)
Theorem getPublicIP_resolves_a_family (input : Geoip)
    (proxy : option ProxyConfig) (r : ipOutputObjectType) :
  z_ipv4 "" = false → z_ipv6 "" = false →
  (∀ o, input = GeoipObject o → is_Some (in_ipv4 o) ∨ is_Some (in_ipv6 o)) →
  result (getPublicIP input proxy) = inr r →
  resolved r ∧ ¬ (ipv4 r = None ∧ ipv6 r = None).
Proof.
  intros He4 He6 Hfamily Hr.
  assert (resolved r) as Hres; [| split; [done |]].
  2: { intros [H4 H6]. destruct Hres as [(s & Hs & _) | (s & Hs & _)]; congruence. }
  unfold getPublicIP in Hr.
  destruct (ipInputObject_safeParse input) as [data|] eqn:Hparse.
  - apply ipOutputObject_parse_returns in Hr as ->.
    unfold ipInputObject_safeParse in Hparse.
    destruct input as [b|o]; [done |].
    destruct (optional_ok z_ipv4 (in_ipv4 o) && optional_ok z_ipv6 (in_ipv6 o)) eqn:Hok;
      [| done].
    simplify_eq. apply andb_true_iff in Hok as [H4 H6].
    destruct (Hfamily data eq_refl) as [[s Hs] | [s Hs]].
    + left. exists s. rewrite Hs in H4 |- *. simpl in *.
      split; [by eapply (if_truthy_literal z_ipv4) | done].
    + right. exists s. rewrite Hs in H6 |- *. simpl in *.
      split; [by eapply (if_truthy_literal z_ipv6) | done].
  - apply io_result_bind_inr in Hr as (customKy & _ & Hr).
    apply io_result_bind_inr in Hr as (sets & Hloop & Hr).
    apply detect_loop_literals in Hloop as [H4 H6]; [| by split; constructor].
    destruct sets as [[|a ipv4Set] [|b ipv6Set]]; simpl in *; [done | | |].
    + apply ipOutputObject_parse_returns in Hr as ->.
      right. exists b. apply Forall_cons in H6 as [-> _]. done.
    + apply ipOutputObject_parse_returns in Hr as ->.
      left. exists a. apply Forall_cons in H4 as [-> _]. done.
    + apply ipOutputObject_parse_returns in Hr as ->.
      left. exists a. apply Forall_cons in H4 as [-> _]. done.
Qed.

Lemma getKyInstance_spec proxy :
  trace (getKyInstance proxy) = []
  ∧ (∀ e, result (getKyInstance proxy) = inl e →
          e = UrlTypeError ∨ e = UnsupportedProxyProtocol).
Proof.
  unfold getKyInstance. destruct proxy as [proxy|]; [| by split].
  destruct (URL_new (server proxy)) as [proxyUrl|].
  - destruct (_ || _); [by split |].
    destruct (String.eqb _ _); split; try done.
    intros e [= <-]. by right.
  - split; [done |]. intros e [= <-]. by left.
Qed.

Lemma detect_loop_error customKy services sets e :
  result (detect_loop customKy services sets) = inl e → ∃ service, e = KyError service.
Proof.
  revert sets. induction services as [|service rest IH]; intros sets; simpl.
  - done.
  - rewrite io_result_bind, detect_spec. unfold result at 1. simpl.
    destruct (ky_get customKy service) as [|[] text]; simpl.
    + intros [= <-]. by eexists.
    + apply IH.
    + apply IH.
Qed.

Lemma detect_loop_trace customKy services sets sets' :
  result (detect_loop customKy services sets) = inr sets' →
  trace (detect_loop customKy services sets) = map EvHttpGet services.
Proof.
  revert sets. induction services as [|service rest IH]; intros sets; simpl.
  - done.
  - rewrite io_result_bind, io_trace_bind, detect_spec. unfold result at 1 2, trace at 1 2.
    simpl. destruct (ky_get customKy service) as [|[] text]; simpl.
    + done.
    + intros Hr. f_equal. by eapply IH.
    + intros Hr. f_equal. by eapply IH.
Qed.

(** The detection error is thrown exactly when every service has been
    asked and has answered, and neither set has gained a literal. *)
Lemma getPublicIP_detection_failed (b : bool) proxy :
  result (getPublicIP (GeoipBool b) proxy) = inl PublicIPFailed
  ↔ ∃ customKy,
      result (getKyInstance proxy) = inr customKy
      ∧ result (detect_loop customKy whatsMyIPList ([], [])) = inr ([], [])
      ∧ trace (getPublicIP (GeoipBool b) proxy) = map EvHttpGet whatsMyIPList.
Proof.
  unfold getPublicIP. simpl ipInputObject_safeParse. cbv iota.
  destruct (getKyInstance_spec proxy) as [Hquiet Herrors].
  rewrite !io_result_bind, !io_trace_bind, Hquiet.
  destruct (result (getKyInstance proxy)) as [e|customKy].
  { split; [| by intros (? & ? & _)].
    intros [= ->]. by destruct (Herrors _ eq_refl). }
  rewrite io_result_bind, io_trace_bind.
  destruct (result (detect_loop customKy whatsMyIPList ([], []))) as [e|sets] eqn:Hloop.
  { split.
    - intros [= ->]. by destruct (detect_loop_error _ _ _ _ Hloop).
    - intros (? & [= <-] & Hr & _). congruence. }
  rewrite (detect_loop_trace _ _ _ _ Hloop).
  split.
  - destruct sets as [[|a ipv4Set] [|b' ipv6Set]]; simpl;
      try (unfold ipOutputObject_parse; by destruct (_ && _)).
    intros _. by exists customKy.
  - intros (? & [= <-] & Hr & _). rewrite Hloop in Hr. by simplify_eq.
Qed.

End public_ip.

(** ** main.ts: the orchestrator *)

Section orchestrator.
Context `{Host}.



Lemma humanize_step_other zvui (m : gmap string JsVal) k :
  k ∉ engine_keys → humanize_step zvui m !! k = m !! k.
Proof.
  intros Hk. unfold engine_keys in Hk. rewrite !not_elem_of_cons in Hk.
  destruct Hk as (_ & _ & _ & _ & _ & _ & _ & ? & ? & _).
  unfold humanize_step. destruct (truthy_humanize _); [| done].
  destruct (humanize zvui) as [[b|q]|]; by rewrite ?addToConfig_other by done.
Qed.

Lemma geoip_step_other zvui exe (m m' : gmap string JsVal) k :
  k ∉ engine_keys → result (geoip_step zvui exe m) = inr m' → m' !! k = m !! k.
Proof.
  intros Hk. unfold engine_keys in Hk. rewrite !not_elem_of_cons in Hk.
  destruct Hk as (? & ? & ? & ? & ? & ? & ? & _).
  unfold geoip_step. destruct (truthy_geoip _) as [g|].
  2: { unfold result. simpl. by intros [= <-]. }
  intros Hr.
  apply io_result_bind_inr in Hr as (publicIP & _ & Hr).
  apply io_result_bind_inr in Hr as (geoData & _ & Hr).
  destruct (if_truthy (timezone geoData)); injection Hr as <-;
    destruct (if_truthy (ipv4 publicIP)), (if_truthy (ipv6 publicIP));
    by rewrite ?addToConfig_other by done.
Qed.

Lemma cache_keys_not_engine_keys k : k ∈ cache_keys → k ∉ engine_keys.
Proof.
  unfold cache_keys, engine_keys. rewrite !elem_of_union, !elem_of_singleton.
  rewrite !not_elem_of_cons. intros Hk.
  repeat destruct Hk as [Hk | Hk]; subst k; repeat split; solve [done | apply not_elem_of_nil].
Qed.

Lemma cache_step_enabled zvui :
  enableCache zvui = Some true → cache_step zvui ∅ = cache_prefs.
Proof. unfold cache_step. by intros ->. Qed.


Lemma dom_cache_prefs : dom cache_prefs = cache_keys.
Proof.
  unfold cache_prefs, cache_keys. rewrite !dom_insert_L, dom_empty_L. set_solver.
Qed.


(** The engine-setting map holds none of the cache preferences. *)
Lemma engine_settings_no_cache_key zvui exe mainConfig k :
  engine_settings zvui exe mainConfig → k ∈ cache_keys → mainConfig !! k = None.
Proof.
  intros (afterGeoip & Hgeoip & ->) Hk%cache_keys_not_engine_keys.
  rewrite humanize_step_other by done.
  by rewrite (geoip_step_other zvui exe ∅ afterGeoip k Hk Hgeoip).
Qed.


(** C5: an input with a proxy and no [geoip] is not refused by validation.
    The option of the schema written for it does refuse it, for its
    missing [geoip], but that option is never run: [safeParse] throws
    while it builds the table of the union, and the orchestrator lets
    through that error, the one it also throws for the valid input
    [{humanize: true}], having performed no I/O.  This holds on every
    host. *)
Theorem proxy_without_geoip_is_never_validated :
  has_proxy_variant (raw_props Sample.proxy_only) = inr None
  ∧ zodCamoufoxLaunchOptions (raw_object Sample.proxy_only)
    = inl (InvalidUnionOption 1)
  ∧ camoufoxLaunchOptions Sample.proxy_only
    = ([], inl (InvalidUnionOption 1))
  ∧ camoufoxLaunchOptions Sample.humanize_only
    = ([], inl (InvalidUnionOption 1)).
Proof.
  split; [| split; [| split]].
  - apply has_proxy_variant_requires_geoip. vm_compute. reflexivity.
  - apply safeParse_throws.
  - apply camoufoxLaunchOptions_throws.
  - apply camoufoxLaunchOptions_throws.
Qed.

(** C8: with [{enableCache: true}] no preference is written and no
    descriptor is returned.  The cache block itself, run on the validated
    input, writes exactly the five preferences into the empty preference
    map, but the orchestrator never reaches it: [safeParse] throws while
    it builds the table of the union.  This holds on every host. *)
Theorem enableCache_never_reaches_the_cache_block :
  camoufoxLaunchOptions Sample.cache_only
  = ([], inl (InvalidUnionOption 1))
  ∧ cache_step Sample.cache_only_zvui ∅ = cache_prefs
  ∧ dom cache_prefs = cache_keys.
Proof.
  split; [apply camoufoxLaunchOptions_throws |].
  split; [by apply cache_step_enabled | apply dom_cache_prefs].
Qed.

End orchestrator.

(** ** The reference host *)

Lemma all_chars_has_char (p : ascii → bool) c s :
  Sample.all_chars p s = true → p c = false → has_char c s = false.
Proof.
  unfold Sample.all_chars. intros Hall Hc.
  induction s as [|c' s IH]; simpl in *; [done |].
  apply andb_true_iff in Hall as [Hc' Hall].
  rewrite (IH Hall), orb_false_r.
  destruct (Ascii.eqb_spec c' c) as [-> | _]; [congruence | done].
Qed.

Lemma label_no_space s : Sample.label s = true → has_char " "%char s = false.
Proof.
  intros Hlabel. apply (all_chars_has_char Sample.is_label_char); [| done].
  unfold Sample.label, Sample.all_chars in *.
  destruct (list_ascii_of_string s) as [|c cs]; [done |]. simpl.
  apply andb_true_iff in Hlabel as [Hlabel _].
  apply andb_true_iff in Hlabel as [Hlabel Hcs].
  apply andb_true_iff in Hlabel as [Hc _].
  unfold Sample.is_label_char at 1. by rewrite Hc, Hcs.
Qed.

(** The reference domain pattern admits no space. *)
Lemma domain_name_no_space s :
  has_char " "%char s = true → Sample.domain_name s = false.
Proof.
  intros Hspace. apply not_true_is_false. intros Hdomain.
  destruct (split_char_has_char "."%char " "%char s) as (seg & Hseg & Hhas);
    [done | done |].
  unfold Sample.domain_name in Hdomain.
  apply list_elem_of_In, in_rev in Hseg.
  destruct (rev (split_char "."%char s)) as [|tld [|l labels]]; try done.
  apply andb_true_iff in Hdomain as [Htld Hlabels].
  apply andb_true_iff in Htld as [Htld _].
  destruct Hseg as [<- | Hseg].
  - by rewrite (all_chars_has_char Sample.is_alpha " "%char tld) in Hhas.
  - rewrite forallb_forall in Hlabels.
    apply Hlabels, label_no_space in Hseg. congruence.
Qed.

(** ** Closed instances *)






Lemma bypass_space_fails_validation_witness :
  space_next_to_comma "a.com, b.com"
  ∧ forallb Sample.domain_name (map trim (split_comma "a.com, b.com")) = true
  ∧ @bypass_refine Sample.first_not_ok "a.com, b.com" = false
  ∧ @z_proxy Sample.first_not_ok (JObj Sample.spaced_bypass) = None.
Proof.
  assert (space_next_to_comma "a.com, b.com") as Hspace.
  { exists "a.com", "b.com". left. reflexivity. }
  assert (Sample.spaced_bypass !! "bypass" = Some (JStr "a.com, b.com")) as Hbypass
    by (vm_compute; reflexivity).
  split; [exact Hspace |]. split; [vm_compute; reflexivity |].
  exact (@bypass_space_fails_validation Sample.first_not_ok
           Sample.spaced_bypass "a.com, b.com" domain_name_no_space Hspace Hbypass).
Defined.

Lemma getPublicIP_explicit_passthrough_witness :
  @z_ipv4 Sample.first_rejects "" = false
  ∧ @z_ipv6 Sample.first_rejects "" = false
  ∧ @z_ipv4 Sample.first_rejects "1.2.3.4" = true
  ∧ @getPublicIP Sample.first_rejects
      (GeoipObject {| in_ipv4 := Some "1.2.3.4"; in_ipv6 := None |}) None
    = ([], inr {| ipv4 := Some "1.2.3.4"; ipv6 := None |})
  ∧ @getPublicIP Sample.first_rejects
      (GeoipObject {| in_ipv4 := None; in_ipv6 := Some "2001:db8::1" |}) None
    = ([], inr {| ipv4 := None; ipv6 := Some "2001:db8::1" |}).
Proof.
  assert (@z_ipv4 Sample.first_rejects "" = false) as He4 by reflexivity.
  assert (@z_ipv6 Sample.first_rejects "" = false) as He6 by reflexivity.
  assert (@z_ipv4 Sample.first_rejects "1.2.3.4" = true) as Hlit by (vm_compute; reflexivity).
  assert (@optional_ok (@z_ipv6 Sample.first_rejects) (Some "2001:db8::1") = true) as H6
    by (vm_compute; reflexivity).
  split; [exact He4 |]. split; [exact He6 |]. split; [exact Hlit |]. split.
  - exact (proj1 (@getPublicIP_explicit_passthrough Sample.first_rejects
                    None None None He4 He6) Hlit).
  - exact (proj2 (@getPublicIP_explicit_passthrough Sample.first_rejects
                    None (Some "2001:db8::1") None He4 He6) eq_refl H6).
Defined.

Lemma getPublicIP_resolves_a_family_witness :
  @z_ipv4 Sample.first_not_ok "" = false
  ∧ @z_ipv6 Sample.first_not_ok "" = false
  ∧ result (@getPublicIP Sample.first_not_ok (GeoipBool true) None)
    = inr {| ipv4 := Some "8.8.8.8"; ipv6 := Some "2001:db8::1" |}
  ∧ @resolved Sample.first_not_ok {| ipv4 := Some "8.8.8.8"; ipv6 := Some "2001:db8::1" |}.
Proof.
  assert (@z_ipv4 Sample.first_not_ok "" = false) as He4 by reflexivity.
  assert (@z_ipv6 Sample.first_not_ok "" = false) as He6 by reflexivity.
  assert (result (@getPublicIP Sample.first_not_ok (GeoipBool true) None)
          = inr {| ipv4 := Some "8.8.8.8"; ipv6 := Some "2001:db8::1" |}) as Hr
    by (vm_compute; reflexivity).
  assert (∀ o, GeoipBool true = GeoipObject o → is_Some (in_ipv4 o) ∨ is_Some (in_ipv6 o))
    as Hfamily by (intros o Ho; discriminate Ho).
  split; [exact He4 |]. split; [exact He6 |]. split; [exact Hr |].
  exact (proj1 (@getPublicIP_resolves_a_family Sample.first_not_ok (GeoipBool true) None
                  _ He4 He6 Hfamily Hr)).
Defined.


Lemma launchPath_looks_beside_directory_witness :
  @path_resolve Sample.first_not_ok
    [dir (@path_parse Sample.first_not_ok (@defaultInstall Sample.first_not_ok));
     "camoufox-bin"] ≠ ""
  ∧ result (@pickPubIP {| ipv4 := Some "8.8.8.8"; ipv6 := None |}) = inr "8.8.8.8"
  ∧ @defaultInstall Sample.first_not_ok = "/home/u/.cache/camoufox"
  ∧ result (@launchPath Sample.first_not_ok None) = inr "/home/u/.cache/camoufox-bin"
  ∧ trace (@launchPath Sample.first_not_ok None)
    = [EvStat "/home/u/.cache"; EvStat "/home/u/.cache/camoufox-bin"]
  ∧ head (trace (@getGeolocationAndLocale Sample.first_not_ok
                   {| ipv4 := Some "8.8.8.8"; ipv6 := None |}
                   "/home/u/.cache/camoufox-bin"))
    = Some (EvStat "/home/u/.cache/GeoLite2-City.mmdb").
Proof.
  assert (@path_resolve Sample.first_not_ok
            [dir (@path_parse Sample.first_not_ok (@defaultInstall Sample.first_not_ok));
             "camoufox-bin"] ≠ "") as Hexe by (vm_compute; discriminate).
  assert (result (@pickPubIP {| ipv4 := Some "8.8.8.8"; ipv6 := None |}) = inr "8.8.8.8")
    as Hpick by reflexivity.
  destruct (@launchPath_looks_beside_directory Sample.first_not_ok None
              {| ipv4 := Some "8.8.8.8"; ipv6 := None |} "8.8.8.8" Hexe Hpick)
    as (Hreturns & _ & Htrace & Hmmdb & _).
  split; [exact Hexe |]. split; [exact Hpick |]. split; [vm_compute; reflexivity |].
  split; [| split].
  - apply Hreturns. vm_compute. repeat split; reflexivity.
  - apply Htrace. vm_compute. reflexivity.
  - exact Hmmdb.
Defined.

(** C2: a detection request that fails outright is not skipped.  With the
    first service unreachable and the others answering, the loop stops at
    the first request and [getPublicIP] throws that request's error, the
    remaining five services never being asked; had the first service
    answered with a response that is not OK, the same answers from the
    others would have resolved both families. *)
Theorem getPublicIP_aborts_on_rejected_request :
  @ky_get Sample.first_rejects Direct "https://api.ipify.org" = Rejected
  ∧ @getPublicIP Sample.first_rejects (GeoipBool true) None
    = ([EvHttpGet "https://api.ipify.org"], inl (KyError "https://api.ipify.org"))
  ∧ @ky_get Sample.first_not_ok Direct "https://api.ipify.org" = Responded false ""
  ∧ @getPublicIP Sample.first_not_ok (GeoipBool true) None
    = (map EvHttpGet whatsMyIPList,
       inr {| ipv4 := Some "8.8.8.8"; ipv6 := Some "2001:db8::1" |}).
Proof. repeat split; vm_compute; reflexivity. Qed.

(** C3: a database file that does not exist does not produce the
    resolver's "'.mmdb' file not found" error.  [fs.stat] rejects before
    [isFile] is ever consulted, and that rejection is what the caller
    receives. *)
Theorem getGeolocationAndLocale_missing_file_rejects :
  @fs_stat Sample.no_database "/home/u/.cache/GeoLite2-City.mmdb" = None
  ∧ @getGeolocationAndLocale Sample.no_database
      {| ipv4 := Some "8.8.8.8"; ipv6 := None |} "/home/u/.cache/camoufox-bin"
    = ([EvStat "/home/u/.cache/GeoLite2-City.mmdb"],
       inl (FsError "/home/u/.cache/GeoLite2-City.mmdb"))
  ∧ result (@getGeolocationAndLocale Sample.no_database
              {| ipv4 := Some "8.8.8.8"; ipv6 := None |} "/home/u/.cache/camoufox-bin")
    ≠ inl MmdbFileNotFound.
Proof. repeat split; vm_compute; first [reflexivity | discriminate]. Qed.

(** * Further properties *)

(** ** helper.ts *)

Lemma js_in_fresh (m : gmap string JsVal) k :
  m !! k = None → k ∉ object_prototype_keys → js_in k m = false.
Proof.
  intros Hk Hproto. unfold js_in. apply orb_false_iff. split.
  - apply bool_decide_eq_false. rewrite Hk. by intros [? ?].
  - by apply bool_decide_eq_false.
Qed.

Lemma js_in_false (m : gmap string JsVal) k :
  js_in k m = false → m !! k = None ∧ k ∉ object_prototype_keys.
Proof.
  unfold js_in. intros [Hown Hproto]%orb_false_iff.
  apply bool_decide_eq_false in Hown, Hproto. split; [| done].
  destruct (m !! k) eqn:Hk; [| done]. destruct Hown. by eexists.
Qed.

Lemma js_in_other (m : gmap string JsVal) k k' v :
  k ≠ k' → js_in k' (addToConfig m k v) = js_in k' m.
Proof.
  intros Hne. unfold js_in. by rewrite addToConfig_other.
Qed.

(** X1: [addToConfig] only ever adds.  Every binding of the map is still
    there afterwards, with the same value, and the only key that can be
    new is the one written. *)
Theorem addToConfig_keeps_bindings (m : gmap string JsVal) (k : string) (v : JsVal) :
  m ⊆ addToConfig m k v ∧ dom (addToConfig m k v) ⊆ {[k]} ∪ dom m.
Proof.
  destruct (js_in k m) eqn:Hin.
  - rewrite addToConfig_present by done. split; [done | set_solver].
  - rewrite addToConfig_absent by done.
    apply js_in_false in Hin as [Hk _]. split.
    + by apply insert_subseteq.
    + rewrite dom_insert_L. set_solver.
Qed.

(** X2: writes to different keys commute: the map built by two
    [addToConfig] calls at distinct keys does not depend on their order. *)
Theorem addToConfig_commutes (m : gmap string JsVal) (k1 k2 : string) (v1 v2 : JsVal) :
  k1 ≠ k2 →
  addToConfig (addToConfig m k1 v1) k2 v2 = addToConfig (addToConfig m k2 v2) k1 v1.
Proof.
  intros Hne.
  unfold addToConfig at 1 3. rewrite !js_in_other by done.
  unfold addToConfig.
  destruct (js_in k1 m), (js_in k2 m); simpl; try done.
  by apply insert_insert_ne.
Qed.

Lemma addToConfig_commutes_witness :
  "humanize" ≠ "timezone"
  ∧ addToConfig (addToConfig ∅ "humanize" (JBool true)) "timezone" (JStr "UTC")
    = addToConfig (addToConfig ∅ "timezone" (JStr "UTC")) "humanize" (JBool true).
Proof.
  assert ("humanize" ≠ "timezone") as Hne by discriminate.
  split; [exact Hne |].
  exact (addToConfig_commutes ∅ "humanize" "timezone" (JBool true) (JStr "UTC") Hne).
Defined.

(** X3: a key that names a property of [Object.prototype] ([toString],
    [constructor], [__proto__], ...) is never written: [key in target] is
    true for it on every object, so [addToConfig] leaves the map as it
    is. *)
Theorem addToConfig_skips_inherited_names (m : gmap string JsVal) (k : string) (v : JsVal) :
  k ∈ object_prototype_keys → addToConfig m k v = m.
Proof.
  intros Hk. apply addToConfig_present. unfold js_in.
  apply orb_true_iff. right. by apply bool_decide_eq_true.
Qed.

Lemma addToConfig_skips_inherited_names_witness :
  "constructor" ∈ object_prototype_keys
  ∧ addToConfig ∅ "constructor" (JStr "x") = ∅.
Proof.
  assert ("constructor" ∈ object_prototype_keys) as Hk by apply list_elem_of_here.
  split; [exact Hk |].
  exact (addToConfig_skips_inherited_names ∅ "constructor" (JStr "x") Hk).
Defined.

(** ** main.ts: the input schema *)

Lemma split_char_nonempty sep s : split_char sep s ≠ [].
Proof.
  destruct s as [|c s]; simpl; [done |].
  destruct (Ascii.eqb c sep); [done |]. by destruct (split_char sep s).
Qed.

(** Splitting at a separator splits the list of segments. *)
Lemma split_char_app sep (a b : string) :
  split_char sep (a +:+ String sep b) = (split_char sep a ++ split_char sep b)%list.
Proof.
  induction a as [|c a IH]; simpl.
  - by rewrite Ascii.eqb_refl.
  - rewrite IH. destruct (Ascii.eqb c sep); [done |].
    pose proof (split_char_nonempty sep a) as Hne.
    by destruct (split_char sep a).
Qed.

Section schema_further.
Context `{Host}.

Lemma bypass_refine_app (a b : string) :
  bypass_refine (a +:+ "," +:+ b) = bypass_refine a && bypass_refine b.
Proof.
  unfold bypass_refine, split_comma.
  change (a +:+ "," +:+ b) with (a +:+ String ","%char b).
  by rewrite split_char_app, forallb_app.
Qed.

(** X4: a bypass list passes exactly when the part before a comma and the
    part after it both pass: joining two lists with a comma validates as
    their conjunction. *)
Theorem bypass_refine_joins (a b : string) :
  bypass_refine (a +:+ "," +:+ b) = bypass_refine a && bypass_refine b
  ∧ (bypass_refine (a +:+ "," +:+ b) = true
     ↔ bypass_refine a = true ∧ bypass_refine b = true).
Proof.
  rewrite bypass_refine_app. split; [done |]. apply andb_true_iff.
Qed.

(** X5: an empty segment is checked like any other.  When the domain
    pattern rejects the empty string, the empty bypass list fails, and so
    does every list with a leading comma, a trailing comma or two commas
    in a row. *)
Theorem bypass_refine_empty_segment (a b : string) :
  z_regexes_domain "" = false →
  bypass_refine "" = false
  ∧ bypass_refine ("," +:+ b) = false
  ∧ bypass_refine (a +:+ ",") = false
  ∧ bypass_refine (a +:+ ",," +:+ b) = false
  ∧ z_bypass (JStr "") = None.
Proof.
  intros Hempty.
  assert (bypass_refine "" = false) as Hnil
    by (unfold bypass_refine; simpl; by rewrite Hempty).
  split; [done |]. split; [| split; [| split]].
  - change ("," +:+ b) with ("" +:+ "," +:+ b). by rewrite bypass_refine_app, Hnil.
  - change (a +:+ ",") with (a +:+ "," +:+ ""). by rewrite bypass_refine_app, Hnil, andb_false_r.
  - change (a +:+ ",," +:+ b) with (a +:+ "," +:+ ("" +:+ "," +:+ b)).
    by rewrite !bypass_refine_app, Hnil, andb_false_r.
  - unfold z_bypass. simpl. by rewrite Hnil.
Qed.

Lemma strict_unknown_key shape (props : gmap string JsVal) k v :
  props !! k = Some v → k ∉ shape → strict shape props = false.
Proof.
  intros Hk Hshape. unfold strict. apply bool_decide_eq_false.
  intros Hsub. apply Hshape.
  apply (elem_of_list_to_set (C := gset string)).
  apply Hsub. apply elem_of_dom. by exists v.
Qed.

(** X6: the proxy object is strict.  A proxy object with a key other than
    [server], [username], [password] and [bypass] fails the validation of
    the proxy whatever its other fields hold. *)
Theorem unknown_key_fails_validation (props : gmap string JsVal) (k : string) (v : JsVal) :
  props !! k = Some v → k ∉ proxy_shape → z_proxy (JObj props) = None.
Proof.
  intros Hk Hshape.
  pose proof (strict_unknown_key _ props k v Hk Hshape) as Hstrict.
  unfold proxy_shape in Hstrict. unfold z_proxy. by rewrite Hstrict.
Qed.

End schema_further.

Section schema_fields.
Context `{Host}.

Lemma z_humanize_number q :
  z_humanize (JNum q) = if (0 <? Qnum q)%Z then Some (HumanizeNumber q) else None.
Proof. unfold z_humanize. simpl. by destruct (0 <? Qnum q)%Z. Qed.

(** X7: the schema of the [humanize] field accepts exactly nothing at
    all, a boolean, and a positive number.  Zero, a negative number, a
    string and [null] end with an issue. *)
Theorem humanize_must_be_positive (v : JsVal) :
  z_optional z_humanize v ≠ None
  ↔ v = JUndefined ∨ (∃ b, v = JBool b) ∨ (∃ q, v = JNum q ∧ (0 < Qnum q)%Z).
Proof.
  split.
  - destruct v as [| |b|q|s|props]; simpl; try done.
    + intros _. by left.
    + intros _. right. left. by exists b.
    + rewrite z_humanize_number. destruct (Z.ltb_spec 0 (Qnum q)); [| done].
      intros _. right. right. by exists q.
  - intros [-> | [(b & ->) | (q & -> & Hpos)]]; simpl; try done.
    rewrite z_humanize_number. by destruct (Z.ltb_spec 0 (Qnum q)); [| lia].
Qed.

(** X8: a proxy that passes validation carries the normalized [href] of
    its server URL, that URL has one of the three supported schemes, and
    every comma-separated segment of its bypass list matches the domain
    pattern. *)
Theorem validated_proxy_is_well_formed (v : JsVal) (proxy : ProxyConfig) :
  z_proxy v = Some proxy →
  (∃ props s url,
     v = JObj props ∧ props !! "server" = Some (JStr s) ∧ URL_new s = Some url
     ∧ server proxy = href url
     ∧ proxy_protocol (strip_colon (protocol url)) = true)
  ∧ (∀ bypassList, bypass proxy = Some bypassList →
       Forall (λ seg, z_regexes_domain seg = true) (split_comma bypassList)).
Proof.
  unfold z_proxy. destruct v as [| | | | |props]; try done.
  destruct (strict _ props); [| done]. intros Hparse.
  apply bind_Some in Hparse as (server' & Hs & Hparse).
  apply bind_Some in Hparse as (username' & _ & Hparse).
  apply bind_Some in Hparse as (password' & _ & Hparse).
  apply bind_Some in Hparse as (bypass' & Hb & Hparse).
  injection Hparse as <-. simpl. split.
  - unfold z_url in Hs.
    apply bind_Some in Hs as (s & Hstr & Hs).
    apply bind_Some in Hs as (url & Hurl & Hs).
    destruct (proxy_protocol _) eqn:Hproto; [| done]. injection Hs as <-.
    exists props, s, url. repeat split; try done.
    unfold prop, z_string in Hstr.
    destruct (props !! "server") as [[]|]; simpl in Hstr; by simplify_eq.
  - intros bypassList ->. unfold z_optional in Hb.
    destruct (prop "bypass" props); simpl in Hb; try done.
    unfold z_bypass in Hb. simpl in Hb.
    destruct (bypass_refine s) eqn:Hrefine; simpl in Hb; [| done].
    injection Hb as <-. unfold bypass_refine in Hrefine.
    apply Forall_forall. intros seg Hseg%list_elem_of_In.
    rewrite forallb_forall in Hrefine. by apply Hrefine.
Qed.

End schema_fields.

(** ** proxy.ts *)

Lemma strip_colon_app s : strip_colon (s +:+ ":") = s.
Proof.
  induction s as [|c s IH]; [done |].
  change (String c s +:+ ":") with (String c (s +:+ ":")).
  simpl. rewrite IH. by destruct s.
Qed.

Lemma eqb_colon (s t : string) : String.eqb (s +:+ ":") (t +:+ ":") = String.eqb s t.
Proof.
  destruct (String.eqb_spec s t) as [-> | Hne].
  - apply String.eqb_refl.
  - apply String.eqb_neq. intros Heq. apply Hne.
    by rewrite <- (strip_colon_app s), <- (strip_colon_app t), Heq.
Qed.

Section public_ip_further.
Context `{Host}.

Lemma getKyInstance_quiet proxy :
  getKyInstance proxy = ([], result (getKyInstance proxy)).
Proof.
  destruct (getKyInstance_spec proxy) as [Hquiet _].
  unfold trace, result in *. destruct (getKyInstance proxy) as [t r]. simpl in *.
  by subst t.
Qed.

(** X9: the two scheme checks agree.  For a proxy whose server parses to
    a URL (its protocol ending in a colon, as every parsed URL's does),
    the dispatcher accepts the scheme exactly when the schema's pattern
    does: an http or https scheme gives the HTTP agent, socks5 the SOCKS
    dispatcher with the URL's port and the proxy's credentials, and only a
    scheme the schema would have refused gives the unsupported-protocol
    error.  None of this performs I/O. *)
Theorem proxy_scheme_checks_agree (proxy : ProxyConfig) (url : URL) (scheme : string) :
  URL_new (server proxy) = Some url →
  protocol url = scheme +:+ ":" →
  (proxy_protocol (strip_colon (protocol url)) = true →
   getKyInstance (Some proxy) = ([], inr (HttpProxy (server proxy)))
   ∨ getKyInstance (Some proxy)
     = ([], inr (Socks5Proxy (server proxy) (port url) (username proxy) (password proxy))))
  ∧ (proxy_protocol (strip_colon (protocol url)) = false →
     getKyInstance (Some proxy) = ([], inl UnsupportedProxyProtocol)).
Proof.
  intros Hurl Hscheme. unfold getKyInstance. rewrite Hurl, Hscheme, strip_colon_app.
  change "http:" with ("http" +:+ ":"). change "https:" with ("https" +:+ ":").
  change "socks5:" with ("socks5" +:+ ":"). rewrite !eqb_colon.
  unfold proxy_protocol.
  destruct (String.eqb scheme "http"), (String.eqb scheme "https"),
    (String.eqb scheme "socks5"); simpl; split; intros Hp; try done;
    first [by left | by right].
Qed.

(** X10: a proxy the dispatcher cannot use stops the auto-detection
    before the first request: an unparsable server, or a scheme other than
    http, https and socks5, makes [getPublicIP] throw with an empty I/O
    trace. *)
Theorem getPublicIP_bad_proxy_fails_first (b : bool) (proxy : ProxyConfig) :
  (URL_new (server proxy) = None →
   getPublicIP (GeoipBool b) (Some proxy) = ([], inl UrlTypeError))
  ∧ (∀ url, URL_new (server proxy) = Some url →
       protocol url ≠ "http:" → protocol url ≠ "https:" → protocol url ≠ "socks5:" →
       getPublicIP (GeoipBool b) (Some proxy) = ([], inl UnsupportedProxyProtocol)).
Proof.
  unfold getPublicIP. simpl ipInputObject_safeParse. cbv iota. split.
  - intros Hurl. unfold getKyInstance. by rewrite Hurl.
  - intros url Hurl Hhttp Hhttps Hsocks. unfold getKyInstance. rewrite Hurl.
    apply String.eqb_neq in Hhttp, Hhttps, Hsocks. by rewrite Hhttp, Hhttps, Hsocks.
Qed.

(** X11: an explicit pair with a malformed address is not refused by
    [getPublicIP]: the pair fails its first parse and the function does
    what it does for [true], asking the detection services. *)
Theorem getPublicIP_malformed_pair_is_detected (o : ipInputObjectType)
    (proxy : option ProxyConfig) :
  (∃ s, in_ipv4 o = Some s ∧ z_ipv4 s = false)
  ∨ (∃ s, in_ipv6 o = Some s ∧ z_ipv6 s = false) →
  getPublicIP (GeoipObject o) proxy = getPublicIP (GeoipBool true) proxy.
Proof.
  intros Hbad. unfold getPublicIP.
  assert (ipInputObject_safeParse (GeoipObject o) = None) as ->; [| done].
  unfold ipInputObject_safeParse.
  destruct Hbad as [(s & Hs & Hlit) | (s & Hs & Hlit)]; rewrite Hs; simpl; rewrite Hlit;
    by rewrite ?andb_false_r.
Qed.

Lemma io_bind_quiet {A B} (a : A) (f : A → IO B) :
  ((([], inr a) : IO A) ≫= f) = f a.
Proof. apply io_bind_ret. Qed.

Lemma io_bind_pair {A B} (t : list Event) (a : A) (f : A → IO B) :
  (((t, inr a) : IO A) ≫= f) = ((t ++ trace (f a))%list, result (f a)).
Proof. reflexivity. Qed.

Lemma io_bind_step {A B} (e : Event) (a : A) (f : A → IO B) :
  ((([e], inr a) : IO A) ≫= f) = (e :: trace (f a), result (f a)).
Proof. reflexivity. Qed.

(** With every service answering, the loop asks them all and adds the
    matching bodies to the two sets in order. *)
Lemma detect_loop_all_respond customKy services sets :
  all_respond customKy services →
  detect_loop customKy services sets
  = (map EvHttpGet services,
     inr (collect z_ipv4 (bodies customKy services) sets.1,
          collect z_ipv6 (bodies customKy services) sets.2)).
Proof.
  revert sets. induction services as [|service rest IH]; intros sets Hall.
  - by destruct sets.
  - apply Forall_cons in Hall as [Hservice Hrest].
    cbn [detect_loop]. rewrite detect_spec. unfold bodies. cbn [omap list_omap].
    destruct (ky_get customKy service) as [|[] text]; [done | |].
    + rewrite io_bind_step, IH by done. reflexivity.
    + rewrite io_bind_step, IH by done. reflexivity.
Qed.

Lemma set_add_head x (set : list string) :
  head (set_add x set) = match set with [] => Some x | y :: _ => Some y end.
Proof.
  unfold set_add. destruct set as [|y set]; [| by case_bool_decide].
  case_bool_decide as Hin; [by apply elem_of_nil in Hin | done].
Qed.

(** The first element of a set is the first value it was given. *)
Lemma collect_head pattern xs set :
  head (collect pattern xs set)
  = match set with [] => first_match pattern xs | y :: _ => Some y end.
Proof.
  unfold collect, first_match. revert set.
  induction xs as [|x xs IH]; intros set; simpl.
  - by destruct set.
  - rewrite IH. destruct (pattern x) eqn:Hx; simpl.
    + pose proof (set_add_head x set) as Hhead.
      destruct (set_add x set) as [|z zs]; destruct set; simpl in *; congruence.
    + done.
Qed.

Lemma first_match_matches pattern xs x :
  first_match pattern xs = Some x → pattern x = true.
Proof.
  unfold first_match. intros Hhead.
  assert (In x (List.filter pattern xs)) as Hin.
  { destruct (List.filter pattern xs); simpl in Hhead; [done |].
    injection Hhead as ->. by left. }
  by apply filter_In in Hin as [_ ?].
Qed.

(** X12: when the dispatcher is built and all six services answer, the
    detection asks each of them once, in order, and resolves each family
    to the first body in that order (trimmed, from an OK response) that is
    a literal of the family, or to [false] when there is none; it fails,
    with the detection error, exactly when neither family has one. *)
Theorem getPublicIP_takes_first_literals (b : bool) (proxy : option ProxyConfig)
    (customKy : Dispatcher) :
  result (getKyInstance proxy) = inr customKy →
  all_respond customKy whatsMyIPList →
  getPublicIP (GeoipBool b) proxy
  = (map EvHttpGet whatsMyIPList,
     match first_match z_ipv4 (bodies customKy whatsMyIPList),
           first_match z_ipv6 (bodies customKy whatsMyIPList) with
     | None, None => inl PublicIPFailed
     | v4, v6 => inr {| ipv4 := v4; ipv6 := v6 |}
     end).
Proof.
  intros Hky Hall. unfold getPublicIP. simpl ipInputObject_safeParse. cbv iota.
  rewrite getKyInstance_quiet, Hky, io_bind_quiet.
  rewrite (detect_loop_all_respond customKy whatsMyIPList ([], []) Hall).
  cbn [fst snd].
  pose proof (collect_head z_ipv4 (bodies customKy whatsMyIPList) []) as H4.
  pose proof (collect_head z_ipv6 (bodies customKy whatsMyIPList) []) as H6.
  cbv iota in H4, H6.
  set (ipv4Set := collect z_ipv4 (bodies customKy whatsMyIPList) []) in *.
  set (ipv6Set := collect z_ipv6 (bodies customKy whatsMyIPList) []) in *.
  rewrite <- H4, <- H6.
  assert (∀ x, head ipv4Set = Some x → z_ipv4 x = true) as Hlit4.
  { intros x Hx. rewrite H4 in Hx. by eapply first_match_matches. }
  assert (∀ x, head ipv6Set = Some x → z_ipv6 x = true) as Hlit6.
  { intros x Hx. rewrite H6 in Hx. by eapply first_match_matches. }
  clearbody ipv4Set ipv6Set. clear H4 H6.
  rewrite io_bind_pair. cbn [fst snd]. unfold set_first, ipOutputObject_parse.
  destruct ipv4Set as [|v4 ipv4Set], ipv6Set as [|v6 ipv6Set]; simpl.
  - done.
  - rewrite (Hlit6 v6 eq_refl). simpl. by rewrite ?(Hlit6 v6 eq_refl), ?app_nil_r.
  - rewrite (Hlit4 v4 eq_refl). simpl. by rewrite ?(Hlit4 v4 eq_refl), ?app_nil_r.
  - rewrite (Hlit4 v4 eq_refl), (Hlit6 v6 eq_refl). simpl.
    by rewrite ?(Hlit4 v4 eq_refl), ?(Hlit6 v6 eq_refl), ?app_nil_r.
Qed.

End public_ip_further.

Section public_ip_effects.
Context `{Host}.








End public_ip_effects.

(** ** geoData.ts and launchPath.ts *)

Section resolvers_further.
Context `{Host}.

(** X15: the resolver looks up the IPv4 address whenever there is one:
    with an IPv4 address present, the IPv6 field has no influence on what
    it does or returns.  With neither address it throws before touching
    the file system. *)
Theorem getGeolocationAndLocale_prefers_ipv4 (v4 : string) (v6 : option string)
    (directory : string) :
  getGeolocationAndLocale {| ipv4 := Some v4; ipv6 := v6 |} directory
  = getGeolocationAndLocale {| ipv4 := Some v4; ipv6 := None |} directory
  ∧ getGeolocationAndLocale {| ipv4 := None; ipv6 := None |} directory
    = ([], inl ValidIPRequired).
Proof.
  split; [| done].
  rewrite (getGeolocationAndLocale_spec _ directory v4),
    (getGeolocationAndLocale_spec {| ipv4 := Some v4; ipv6 := None |} directory v4);
    [done | done |].
  rewrite pickPubIP_spec. by destruct v6.
Qed.

(** X16: the resolver returns exactly when the database file beside the
    given path is a regular file that can be read and opened, the lookup
    of the chosen address finds a record with a location and a country,
    the country's ISO code has locales, and the location carries its
    longitude, latitude and accuracy radius.  What it returns then is
    those three numbers and the location's time zone, with the locales
    joined by a comma and a space; and all it has done is one [stat] and
    one [readFile] of the database.  A location that lacks one of the
    three numbers fails the final parse. *)
Theorem getGeolocationAndLocale_returns (ipObject : ipOutputObjectType)
    (directory pubIP : string) (geoData : GeoLocale) :
  let mmdbFile := path_resolve [dir (path_parse directory); "GeoLite2-City.mmdb"] in
  result (pickPubIP ipObject) = inr pubIP →
  (result (getGeolocationAndLocale ipObject directory) = inr geoData
   ↔ ∃ buffer reader record location country clmLocales,
       fs_stat mmdbFile = Some RegularFile
       ∧ fs_readFile mmdbFile = Some buffer
       ∧ Reader_new buffer = Some reader
       ∧ reader pubIP = Some record
       ∧ Host.location record = Some location
       ∧ Host.country record = Some country
       ∧ clm_getCountryByAlpha2 (iso_code country) = Some clmLocales
       ∧ loc_longitude location = Some (longitude geoData)
       ∧ loc_latitude location = Some (latitude geoData)
       ∧ accuracy_radius location = Some (accuracy geoData)
       ∧ time_zone location = timezone geoData
       ∧ join_comma_space clmLocales = locales geoData)
  ∧ (result (getGeolocationAndLocale ipObject directory) = inr geoData →
     trace (getGeolocationAndLocale ipObject directory)
     = [EvStat mmdbFile; EvReadFile mmdbFile])
  ∧ (∀ buffer reader record location country clmLocales,
       fs_stat mmdbFile = Some RegularFile → fs_readFile mmdbFile = Some buffer →
       Reader_new buffer = Some reader → reader pubIP = Some record →
       Host.location record = Some location → Host.country record = Some country →
       clm_getCountryByAlpha2 (iso_code country) = Some clmLocales →
       loc_longitude location = None ∨ loc_latitude location = None
       ∨ accuracy_radius location = None →
       result (getGeolocationAndLocale ipObject directory) = inl ZodError).
Proof.
  intros mmdbFile Hpick.
  rewrite (getGeolocationAndLocale_spec ipObject directory pubIP Hpick). fold mmdbFile.
  split; [split | split].
  - destruct (fs_stat mmdbFile) as [[]|]; try done. unfold result. simpl.
    destruct (fs_readFile mmdbFile) as [buffer|] eqn:Hbuffer; [| done].
    destruct (Reader_new buffer) as [reader|] eqn:Hreader; [| done].
    destruct (reader pubIP) as [record|] eqn:Hrecord; [| done].
    destruct (Host.location record) as [location|] eqn:Hloc; [| by destruct (Host.country record)].
    destruct (Host.country record) as [country|] eqn:Hcountry; [| done].
    destruct (clm_getCountryByAlpha2 (iso_code country)) as [clmLocales|] eqn:Hclm; [| done].
    destruct (loc_longitude location) as [lon|] eqn:Hlon; [| done].
    destruct (loc_latitude location) as [lat|] eqn:Hlat; [| done].
    destruct (accuracy_radius location) as [acc|] eqn:Hacc; [| done].
    intros [= <-]. exists buffer, reader, record, location, country, clmLocales.
    simpl. by rewrite Hlon, Hlat, Hacc.
  - intros (buffer & reader & record & location & country & clmLocales
            & -> & -> & -> & -> & -> & -> & -> & -> & -> & -> & Htz & Hlocales).
    rewrite Htz, Hlocales. by destruct geoData.
  - by destruct (fs_stat mmdbFile) as [[]|].
  - intros buffer reader record location country clmLocales
      -> -> -> -> -> -> -> Hmissing.
    unfold result. simpl.
    destruct Hmissing as [-> | [-> | ->]]; [done | |].
    + by destruct (loc_longitude location).
    + by destruct (loc_longitude location), (loc_latitude location).
Qed.

(** X17: [launchPath] throws its own "not installed" error exactly when
    the parent of the directory exists without being a directory, or is a
    directory in which the executable exists without being a regular
    file.  A parent or an executable that does not exist is not reported
    that way: the rejection of [fs.stat] for that path comes out
    instead. *)
Theorem launchPath_not_installed (customInstall : option string) :
  let parent := dir (path_parse (default defaultInstall (if_truthy customInstall))) in
  let exe := path_resolve [parent; camoufoxExecutable osName] in
  exe ≠ "" →
  (result (launchPath customInstall) = inl CamoufoxNotInstalled
   ↔ (∃ kind, fs_stat parent = Some kind ∧ isDirectory kind = false)
     ∨ (fs_stat parent = Some Directory
        ∧ ∃ kind, fs_stat exe = Some kind ∧ isFile kind = false))
  ∧ (fs_stat parent = None →
     launchPath customInstall = ([EvStat parent], inl (FsError parent)))
  ∧ (fs_stat parent = Some Directory → fs_stat exe = None →
     launchPath customInstall = ([EvStat parent; EvStat exe], inl (FsError exe))).
Proof.
  intros parent exe Hexe. rewrite (launchPath_spec customInstall Hexe).
  fold parent. fold exe. split; [split | split].
  - destruct (fs_stat parent) as [[]|] eqn:Hparent; unfold result; simpl; try done.
    + intros _. left. by eexists.
    + destruct (fs_stat exe) as [[]|] eqn:Hexists; simpl; try done.
      * intros _. right. split; [done |]. by eexists.
      * intros _. right. split; [done |]. by eexists.
    + intros _. left. by eexists.
  - intros [(kind & -> & Hkind) | (-> & kind & -> & Hkind)]; by destruct kind.
  - by intros ->.
  - by intros -> ->.
Qed.

End resolvers_further.

(** ** main.ts: the orchestrator *)

Lemma io_bind_ext {A B} (m : IO A) (f g : A → IO B) :
  (∀ a, result m = inr a → f a = g a) → (m ≫= f) = (m ≫= g).
Proof.
  intros Hfg. destruct m as [t [e|a]]; [done |].
  unfold mbind, io_mbind, io_bind. simpl. by rewrite (Hfg a eq_refl).
Qed.

Lemma engine_keys_not_inherited k : k ∈ engine_keys → k ∉ object_prototype_keys.
Proof.
  assert (Forall (λ k, k ∉ object_prototype_keys) engine_keys) as Hall.
  { apply (bool_decide_eq_true_1 _). vm_compute. reflexivity. }
  rewrite Forall_forall in Hall. apply Hall.
Qed.

Lemma geo_keys_engine_keys k : k ∈ geo_keys → k ∈ engine_keys.
Proof.
  assert (Forall (λ k, k ∈ engine_keys) geo_keys) as Hall.
  { apply (bool_decide_eq_true_1 _). vm_compute. reflexivity. }
  rewrite Forall_forall in Hall. apply Hall.
Qed.

(** A write at an engine key the map does not hold yet is an insert. *)
Lemma addToConfig_engine_key (m : gmap string JsVal) k v :
  k ∈ engine_keys → m !! k = None → addToConfig m k v = <[k := v]> m.
Proof.
  intros Hk Hnone. apply addToConfig_absent, js_in_fresh; [done |].
  by apply engine_keys_not_inherited.
Qed.

(** Solves [m !! k = None] for a chain of inserts at other literal keys. *)
Ltac fresh_key :=
  repeat (rewrite lookup_insert_ne by discriminate); apply lookup_empty.

(** Turns the outermost [addToConfig] at a literal engine key into an
    insert. *)
Ltac write_engine_key :=
  rewrite addToConfig_engine_key;
  [ | apply (bool_decide_eq_true_1 _); vm_compute; reflexivity | fresh_key ].

(** The writes of the geolocation block, one after the other, on the empty
    map. *)
Lemma geo_block_settings (publicIP : ipOutputObjectType) (geoData : GeoLocale) :
  let mainConfig : gmap string JsVal := ∅ in
  let mainConfig :=
    match if_truthy (ipv4 publicIP) with
    | Some v4 => addToConfig mainConfig "webrtc:ipv4" (JStr v4)
    | None => mainConfig
    end in
  let mainConfig :=
    match if_truthy (ipv6 publicIP) with
    | Some v6 => addToConfig mainConfig "webrtc:ipv6" (JStr v6)
    | None => mainConfig
    end in
  let mainConfig :=
    addToConfig mainConfig "geolocation:longitude" (JNum (longitude geoData)) in
  let mainConfig :=
    addToConfig mainConfig "geolocation:latitude" (JNum (latitude geoData)) in
  let mainConfig :=
    addToConfig mainConfig "geolocation:accuracy" (JNum (accuracy geoData)) in
  let mainConfig :=
    addToConfig mainConfig "locale:all" (JStr (locales geoData)) in
  match if_truthy (timezone geoData) with
  | Some tz => addToConfig mainConfig "timezone" (JStr tz)
  | None => mainConfig
  end = geo_settings publicIP geoData.
Proof.
  cbv zeta. unfold geo_settings.
  destruct (if_truthy (ipv4 publicIP)) as [v4|],
    (if_truthy (ipv6 publicIP)) as [v6|],
    (if_truthy (timezone geoData)) as [tz|]; cbn [fmap option_fmap option_map];
    repeat write_engine_key; reflexivity.
Qed.

Section orchestrator_further.
Context `{Host}.

(** The geolocation block as the two resolvers followed by one map. *)
Lemma geoip_step_spec zvui exe :
  geoip_step zvui exe ∅
  = match truthy_geoip (geoip zvui) with
    | Some g =>
        publicIP ← getPublicIP g (Options.proxy zvui);
        geoData ← getGeolocationAndLocale publicIP exe;
        mret (geo_settings publicIP geoData)
    | None => mret ∅
    end.
Proof.
  unfold geoip_step. destruct (truthy_geoip (geoip zvui)) as [g|]; [| done].
  apply io_bind_ext. intros publicIP _.
  apply io_bind_ext. intros geoData _.
  rewrite <- (geo_block_settings publicIP geoData). cbv zeta.
  by destruct (if_truthy (timezone geoData)).
Qed.

Lemma checked_scalars m : scalars m → checked m = mret m.
Proof. intros Hm. unfold checked, configCheck. by rewrite bool_decide_eq_true_2. Qed.

Lemma addToConfig_scalars m k v :
  scalars m → config_value v = true → scalars (addToConfig m k v).
Proof.
  intros Hm Hv. unfold addToConfig. destruct (negb (js_in k m)); [| done].
  by apply map_Forall_insert_2.
Qed.

Lemma geo_settings_scalars publicIP geoData : scalars (geo_settings publicIP geoData).
Proof.
  unfold geo_settings.
  destruct (if_truthy (ipv4 publicIP)), (if_truthy (ipv6 publicIP)),
    (if_truthy (timezone geoData)); cbn [fmap option_fmap option_map];
    repeat (apply map_Forall_insert_2; [done |]); apply map_Forall_empty.
Qed.

Lemma humanize_step_scalars zvui m : scalars m → scalars (humanize_step zvui m).
Proof.
  intros Hm. unfold humanize_step. destruct (truthy_humanize _); [| done].
  destruct (humanize zvui) as [[b|q]|]; repeat apply addToConfig_scalars; done.
Qed.

Lemma cache_step_scalars zvui : scalars (cache_step zvui ∅).
Proof.
  unfold cache_step. destruct (default false (enableCache zvui)).
  - repeat apply addToConfig_scalars; try done; apply map_Forall_empty.
  - apply map_Forall_empty.
Qed.

Lemma process_env_scalars : scalars (JStr <$> process_env).
Proof.
  intros k v. rewrite lookup_fmap. destruct (process_env !! k); simpl; [| done].
  by intros [= <-].
Qed.

Lemma geoip_step_scalars zvui exe m :
  result (geoip_step zvui exe ∅) = inr m → scalars m.
Proof.
  rewrite geoip_step_spec. destruct (truthy_geoip (geoip zvui)) as [g|].
  - intros Hr.
    apply io_result_bind_inr in Hr as (publicIP & _ & Hr).
    apply io_result_bind_inr in Hr as (geoData & _ & Hr).
    injection Hr as <-. apply geo_settings_scalars.
  - intros [= <-]. apply map_Forall_empty.
Qed.

(** The assembly is the executable check, the geolocation block and the
    building of the descriptor: the three final checks of the config maps
    always pass. *)
Lemma assemble_spec zvui :
  assemble zvui
  = (exe ← launchPath (Options.executablePath zvui);
     mainConfig ← geoip_step zvui exe ∅;
     mret (descriptor zvui exe mainConfig)).
Proof.
  unfold assemble.
  apply io_bind_ext. intros exe _.
  apply io_bind_ext. intros mainConfig Hgeoip.
  rewrite (checked_scalars (humanize_step zvui mainConfig)), io_bind_ret
    by (by eapply humanize_step_scalars, geoip_step_scalars).
  rewrite (checked_scalars (cache_step zvui ∅)), io_bind_ret by apply cache_step_scalars.
  by rewrite (checked_scalars _ process_env_scalars), io_bind_ret.
Qed.

End orchestrator_further.

Section orchestrator_properties.
Context `{Host}.

(** X18: an empty [executablePath] is treated as none at all.
    [launchPath] looks for the default installation, and the assembly of
    a validated input with the empty string as its [executablePath] is
    the assembly of the same input without one. *)
Theorem empty_executablePath_means_default (zvui : CamoufoxLaunchOptions) :
  Options.executablePath zvui = Some "" →
  launchPath (Some "") = launchPath None
  ∧ assemble zvui
    = assemble {| Options.headless := Options.headless zvui;
                  Options.proxy := Options.proxy zvui; geoip := geoip zvui;
                  humanize := humanize zvui; enableCache := enableCache zvui;
                  Options.executablePath := None |}.
Proof.
  intros Hexe. split; [reflexivity |].
  destruct zvui as [h p g z c e]. simpl in Hexe. subst e.
  rewrite !assemble_spec. reflexivity.
Qed.


(** X20: the orchestrator throws on every input, before any I/O.  The
    table of the union discriminated on [proxy] cannot be built, its
    second option declaring no literal for [proxy], so [safeParse] throws
    zod's "Invalid discriminated union option at index 1" for every
    object, and nothing catches it.  The union of the two address shapes
    has the same defect at its first option: the [geoip] schema throws on
    every object it is given. *)
Theorem camoufoxLaunchOptions_always_throws (raw : RawOptions) :
  camoufoxLaunchOptions raw = ([], inl (InvalidUnionOption 1))
  ∧ (∀ props, zodCamoufoxLaunchOptions (JObj props) = inl (InvalidUnionOption 1))
  ∧ (∀ props, z_geoip (JObj props) = inl (InvalidUnionOption 0)).
Proof.
  split; [apply camoufoxLaunchOptions_throws |].
  split; [apply safeParse_throws | apply z_geoip_object_throws].
Qed.


End orchestrator_properties.

Section orchestrator_settings.
Context `{Host}.







End orchestrator_settings.

Section orchestrator_order.
Context `{Host}.

Lemma check_no_request directory :
  Forall (λ e, is_request e = false) (trace (checkIfCamoufoxIsInstalled directory)).
Proof.
  unfold checkIfCamoufoxIsInstalled, validatedExecutablePath.
  set (parent := dir (path_parse directory)).
  set (exe := path_resolve [parent; camoufoxExecutable osName]).
  io_unfold.
  destruct (fs_stat parent) as [[]|]; simpl; repeat constructor.
  destruct (fs_stat exe) as [[]|]; simpl; repeat constructor.
  destruct exe; simpl; repeat constructor.
Qed.

Lemma launchPath_no_request customInstall :
  Forall (λ e, is_request e = false) (trace (launchPath customInstall)).
Proof.
  unfold launchPath. rewrite io_trace_bind.
  destruct (if_truthy customInstall) as [custom|].
  - pose proof (check_no_request custom) as Hc.
    destruct (result (checkIfCamoufoxIsInstalled custom)) as [e|r]; [done|].
    apply Forall_app. split; [done|]. destruct (if_truthy r); constructor.
  - pose proof (check_no_request defaultInstall) as Hc.
    destruct (result (checkIfCamoufoxIsInstalled defaultInstall)) as [e|r]; [done|].
    apply Forall_app. split; [done|]. destruct (if_truthy r); constructor.
Qed.

Lemma getGeolocationAndLocale_no_request ipObject directory :
  Forall (λ e, is_request e = false) (trace (getGeolocationAndLocale ipObject directory)).
Proof.
  destruct (result (pickPubIP ipObject)) as [e|pubIP] eqn:Hpick.
  - unfold getGeolocationAndLocale. rewrite io_trace_bind, Hpick.
    rewrite pickPubIP_spec. by destruct (ipv4 ipObject), (ipv6 ipObject).
  - rewrite (getGeolocationAndLocale_spec ipObject directory pubIP Hpick).
    destruct (fs_stat _) as [[]|]; repeat constructor.
Qed.

(** X24: the stages of the assembly run in order and the first failure
    is the outcome.  A failing executable check ends it with its error
    and its I/O, before anything is asked of the network; with the
    executable found and [geoip] on, a failing address resolution ends it
    with its error, the database never being opened; and a failing geo
    lookup ends it with its error. *)
Theorem first_failure_is_the_outcome (zvui : CamoufoxLaunchOptions) :
  (∀ e, result (launchPath (Options.executablePath zvui)) = inl e →
     assemble zvui = (trace (launchPath (Options.executablePath zvui)), inl e))
  ∧ (∀ exe g e,
       result (launchPath (Options.executablePath zvui)) = inr exe →
       truthy_geoip (geoip zvui) = Some g →
       result (getPublicIP g (Options.proxy zvui)) = inl e →
       assemble zvui
       = ((trace (launchPath (Options.executablePath zvui))
           ++ trace (getPublicIP g (Options.proxy zvui)))%list, inl e))
  ∧ (∀ exe g publicIP e,
       result (launchPath (Options.executablePath zvui)) = inr exe →
       truthy_geoip (geoip zvui) = Some g →
       result (getPublicIP g (Options.proxy zvui)) = inr publicIP →
       result (getGeolocationAndLocale publicIP exe) = inl e →
       result (assemble zvui) = inl e).
Proof.
  rewrite assemble_spec.
  split; [| split].
  - intros e He. unfold result, trace in *.
    destruct (launchPath _) as [t r]. simpl in *. by subst r.
  - intros exe g e Hexe Hg He.
    destruct (launchPath (Options.executablePath zvui)) as [t r].
    unfold result at 1 in Hexe. unfold trace at 1. simpl in Hexe |- *. subst r.
    rewrite io_bind_pair, io_trace_bind, io_result_bind, geoip_step_spec, Hg.
    by rewrite io_trace_bind, io_result_bind, He.
  - intros exe g publicIP e Hexe Hg Hip He.
    rewrite io_result_bind, Hexe, io_result_bind, geoip_step_spec, Hg.
    by rewrite io_result_bind, Hip, io_result_bind, He.
Qed.

(** X25: the assembly of a validated input with a well-formed explicit
    address pair never reaches the detection services: no call of
    [customKy.get] appears in its I/O.  (The patterns of zod match no
    empty string.) *)
Theorem explicit_pair_needs_no_network (zvui : CamoufoxLaunchOptions)
    (o : ipInputObjectType) :
  z_ipv4 "" = false → z_ipv6 "" = false →
  geoip zvui = Some (GeoipObject o) →
  optional_ok z_ipv4 (in_ipv4 o) = true → optional_ok z_ipv6 (in_ipv6 o) = true →
  Forall (λ e, is_request e = false) (trace (assemble zvui)).
Proof.
  intros He4 He6 Hgeoip H4 H6.
  assert (getPublicIP (GeoipObject o) (Options.proxy zvui)
          = ([], inr {| ipv4 := in_ipv4 o; ipv6 := in_ipv6 o |})) as Hip.
  { destruct o as [v4 v6]. by apply getPublicIP_object. }
  rewrite assemble_spec, io_trace_bind.
  pose proof (launchPath_no_request (Options.executablePath zvui)) as Hlaunch.
  destruct (result (launchPath (Options.executablePath zvui))) as [e|exe]; [done |].
  apply Forall_app. split; [done |].
  rewrite geoip_step_spec, Hgeoip. cbn [truthy_geoip]. rewrite Hip, io_bind_quiet.
  rewrite io_trace_bind.
  set (resolved := getGeolocationAndLocale _ exe ≫= _).
  assert (Forall (λ e, is_request e = false) (trace resolved)) as Hresolved.
  { unfold resolved. rewrite io_trace_bind.
    pose proof (getGeolocationAndLocale_no_request
                  {| ipv4 := in_ipv4 o; ipv6 := in_ipv6 o |} exe) as Hgeo.
    destruct (result (getGeolocationAndLocale _ exe)); [done |].
    apply Forall_app. split; [done | constructor]. }
  destruct (result resolved); [done |].
  apply Forall_app. split; [done | constructor].
Qed.

End orchestrator_order.

(** ** Closed instances of the further properties *)

Lemma bypass_refine_joins_witness :
  @bypass_refine Sample.first_not_ok "a.com,b.org" = true
  ∧ @bypass_refine Sample.first_not_ok "a.com" = true
  ∧ @bypass_refine Sample.first_not_ok "b.org" = true.
Proof.
  assert (@bypass_refine Sample.first_not_ok "a.com,b.org" = true) as Hjoined
    by (vm_compute; reflexivity).
  split; [exact Hjoined |].
  exact (proj1 (proj2 (@bypass_refine_joins Sample.first_not_ok "a.com" "b.org")) Hjoined).
Defined.

Lemma bypass_refine_empty_segment_witness :
  @z_regexes_domain Sample.first_not_ok "" = false
  ∧ @bypass_refine Sample.first_not_ok "a.com," = false
  ∧ @bypass_refine Sample.first_not_ok "a.com,,b.org" = false.
Proof.
  assert (@z_regexes_domain Sample.first_not_ok "" = false) as Hempty by reflexivity.
  destruct (@bypass_refine_empty_segment Sample.first_not_ok "a.com" "b.org" Hempty)
    as (_ & _ & Htrailing & Hdouble & _).
  split; [exact Hempty |]. split; [exact Htrailing | exact Hdouble].
Defined.

Lemma unknown_key_fails_validation_witness :
  Cases.proxy_with_port !! "port" = Some (JNum (3128 # 1))
  ∧ ("port" ∉ proxy_shape)
  ∧ @z_proxy Sample.first_not_ok (JObj Cases.proxy_with_port) = None.
Proof.
  assert (Cases.proxy_with_port !! "port" = Some (JNum (3128 # 1))) as Hport
    by (vm_compute; reflexivity).
  assert ("port" ∉ proxy_shape) as Hshape
    by (apply (bool_decide_eq_true_1 _); vm_compute; reflexivity).
  split; [exact Hport |]. split; [exact Hshape |].
  exact (@unknown_key_fails_validation Sample.first_not_ok
           Cases.proxy_with_port "port" _ Hport Hshape).
Defined.

Lemma humanize_must_be_positive_witness :
  @z_optional Humanize z_humanize (JNum (5 # 2)) ≠ None
  ∧ @z_optional Humanize z_humanize (JNum (0 # 1)) = None.
Proof.
  split.
  - apply (proj2 (humanize_must_be_positive (JNum (5 # 2)))).
    right. right. exists (5 # 2). split; [reflexivity | simpl; lia].
  - destruct (@z_optional Humanize z_humanize (JNum (0 # 1))) as [h|] eqn:Hzero;
      [| reflexivity].
    assert (@z_optional Humanize z_humanize (JNum (0 # 1)) ≠ None) as Hsome
      by (rewrite Hzero; discriminate).
    apply (proj1 (humanize_must_be_positive (JNum (0 # 1)))) in Hsome.
    destruct Hsome as [Hu | [(b & Hb) | (q & Hq & Hpos)]];
      [discriminate Hu | discriminate Hb |].
    injection Hq as <-. simpl in Hpos. lia.
Defined.

Lemma validated_proxy_is_well_formed_witness :
  ∃ proxy,
    @z_proxy Sample.first_not_ok (JObj Cases.proxy_object) = Some proxy
    ∧ bypass proxy = Some "a.com,b.org"
    ∧ Forall (λ seg, Sample.domain_name seg = true) (split_comma "a.com,b.org").
Proof.
  set (proxy := {| server := "http://proxy.example.com:3128"; username := None;
                   password := None; bypass := Some "a.com,b.org" |}).
  assert (@z_proxy Sample.first_not_ok (JObj Cases.proxy_object) = Some proxy) as Hproxy
    by (vm_compute; reflexivity).
  exists proxy. split; [exact Hproxy |]. split; [reflexivity |].
  exact (proj2 (@validated_proxy_is_well_formed Sample.first_not_ok _ proxy Hproxy)
           "a.com,b.org" eq_refl).
Defined.

Lemma proxy_scheme_checks_agree_witness :
  @getKyInstance Sample.first_not_ok (Some Cases.socks_proxy)
  = ([], inr (Socks5Proxy "socks5://socks.example.com" "" (Some "u") (Some "p")))
  ∧ @getKyInstance Sample.first_not_ok (Some Cases.ftp_proxy)
    = ([], inl UnsupportedProxyProtocol).
Proof.
  split.
  - destruct (proj1 (@proxy_scheme_checks_agree Sample.first_not_ok Cases.socks_proxy
                       {| protocol := "socks5:"; port := "";
                          href := "socks5://socks.example.com" |} "socks5"
                       eq_refl eq_refl) eq_refl) as [Hhttp | Hsocks].
    + vm_compute in Hhttp. discriminate Hhttp.
    + exact Hsocks.
  - exact (proj2 (@proxy_scheme_checks_agree Sample.first_not_ok Cases.ftp_proxy
                    {| protocol := "ftp:"; port := "";
                       href := "ftp://files.example.com" |} "ftp"
                    eq_refl eq_refl) eq_refl).
Defined.

Lemma getPublicIP_bad_proxy_fails_first_witness :
  @getPublicIP Sample.first_not_ok (GeoipBool true) (Some Cases.ftp_proxy)
  = ([], inl UnsupportedProxyProtocol).
Proof.
  apply (proj2 (@getPublicIP_bad_proxy_fails_first Sample.first_not_ok true Cases.ftp_proxy)
           {| protocol := "ftp:"; port := ""; href := "ftp://files.example.com" |});
    [reflexivity | discriminate | discriminate | discriminate].
Defined.

Lemma getPublicIP_malformed_pair_is_detected_witness :
  @z_ipv4 Sample.first_not_ok "8.8.8.888" = false
  ∧ @getPublicIP Sample.first_not_ok
      (GeoipObject {| in_ipv4 := Some "8.8.8.888"; in_ipv6 := None |}) None
    = @getPublicIP Sample.first_not_ok (GeoipBool true) None.
Proof.
  assert (@z_ipv4 Sample.first_not_ok "8.8.8.888" = false) as Hbad
    by (vm_compute; reflexivity).
  split; [exact Hbad |].
  apply (@getPublicIP_malformed_pair_is_detected Sample.first_not_ok).
  left. exists "8.8.8.888". split; [reflexivity | exact Hbad].
Defined.

Lemma getPublicIP_takes_first_literals_witness :
  @all_respond Sample.first_not_ok Direct whatsMyIPList
  ∧ @bodies Sample.first_not_ok Direct whatsMyIPList
    = ["8.8.8.8"; "<html>busy</html>"; "2001:db8::1"; "8.8.8.8"]
  ∧ @getPublicIP Sample.first_not_ok (GeoipBool true) None
    = (map EvHttpGet whatsMyIPList,
       inr {| ipv4 := Some "8.8.8.8"; ipv6 := Some "2001:db8::1" |}).
Proof.
  assert (@all_respond Sample.first_not_ok Direct whatsMyIPList) as Hall.
  { unfold all_respond. repeat constructor; vm_compute; discriminate. }
  split; [exact Hall |]. split; [vm_compute; reflexivity |].
  rewrite (@getPublicIP_takes_first_literals Sample.first_not_ok true None Direct
             eq_refl Hall).
  vm_compute. reflexivity.
Defined.


Lemma getGeolocationAndLocale_returns_witness :
  result (@getGeolocationAndLocale Sample.first_not_ok
            {| ipv4 := Some "8.8.8.8"; ipv6 := None |} "/home/u/.cache/camoufox-bin")
  = inr {| longitude := -74 # 1; latitude := 407 # 10; accuracy := 20 # 1;
           timezone := Some "America/New_York"; locales := "en-US, es-US" |}
  ∧ trace (@getGeolocationAndLocale Sample.first_not_ok
             {| ipv4 := Some "8.8.8.8"; ipv6 := None |} "/home/u/.cache/camoufox-bin")
    = [EvStat "/home/u/.cache/GeoLite2-City.mmdb";
       EvReadFile "/home/u/.cache/GeoLite2-City.mmdb"]
  ∧ result (@getGeolocationAndLocale Cases.sparse_database
              {| ipv4 := Some "8.8.8.8"; ipv6 := None |} "/home/u/.cache/camoufox-bin")
    = inl ZodError.
Proof.
  assert (result (@pickPubIP {| ipv4 := Some "8.8.8.8"; ipv6 := None |}) = inr "8.8.8.8")
    as Hpick by reflexivity.
  destruct (@getGeolocationAndLocale_returns Sample.first_not_ok
              {| ipv4 := Some "8.8.8.8"; ipv6 := None |} "/home/u/.cache/camoufox-bin"
              "8.8.8.8"
              {| longitude := -74 # 1; latitude := 407 # 10; accuracy := 20 # 1;
                 timezone := Some "America/New_York"; locales := "en-US, es-US" |}
              Hpick) as (Hreturns & Htrace & _).
  destruct (@getGeolocationAndLocale_returns Cases.sparse_database
              {| ipv4 := Some "8.8.8.8"; ipv6 := None |} "/home/u/.cache/camoufox-bin"
              "8.8.8.8"
              {| longitude := 0; latitude := 0; accuracy := 0;
                 timezone := None; locales := "" |}
              Hpick) as (_ & _ & Hsparse).
  assert (result (@getGeolocationAndLocale Sample.first_not_ok
                    {| ipv4 := Some "8.8.8.8"; ipv6 := None |}
                    "/home/u/.cache/camoufox-bin")
          = inr {| longitude := -74 # 1; latitude := 407 # 10; accuracy := 20 # 1;
                   timezone := Some "America/New_York"; locales := "en-US, es-US" |})
    as Hr.
  { apply Hreturns.
    exists "mmdb", (λ ip, Sample.assoc ip [("8.8.8.8", Sample.new_york)]),
      Sample.new_york,
      {| loc_longitude := Some (-74 # 1); loc_latitude := Some (407 # 10);
         accuracy_radius := Some (20 # 1); time_zone := Some "America/New_York" |},
      {| iso_code := "US" |}, ["en-US"; "es-US"].
    repeat split; vm_compute; reflexivity. }
  split; [exact Hr |]. split; [exact (Htrace Hr) |].
  apply (Hsparse "mmdb" (λ ip, Sample.assoc ip [("8.8.8.8", Cases.no_coordinates)])
           Cases.no_coordinates
           {| loc_longitude := None; loc_latitude := None;
              accuracy_radius := Some (1000 # 1); time_zone := Some "Europe/Berlin" |}
           {| iso_code := "DE" |} ["de-DE"]);
    first [ by left | vm_compute; reflexivity ].
Defined.

Lemma launchPath_not_installed_witness :
  @launchPath Cases.cache_is_a_file None
  = ([EvStat "/home/u/.cache"], inl CamoufoxNotInstalled)
  ∧ @launchPath Cases.nothing_installed None
    = ([EvStat "/home/u/.cache"], inl (FsError "/home/u/.cache")).
Proof.
  assert (@path_resolve Cases.cache_is_a_file
            [dir (@path_parse Cases.cache_is_a_file (@defaultInstall Cases.cache_is_a_file));
             "camoufox-bin"] ≠ "") as Hexe by (vm_compute; discriminate).
  destruct (@launchPath_not_installed Cases.cache_is_a_file None Hexe)
    as (Hiff & _ & _).
  destruct (@launchPath_not_installed Cases.nothing_installed None Hexe)
    as (_ & Hmissing & _).
  split.
  - assert (result (@launchPath Cases.cache_is_a_file None) = inl CamoufoxNotInstalled)
      as Hr.
    { apply Hiff. left. exists RegularFile. split; vm_compute; reflexivity. }
    assert (trace (@launchPath Cases.cache_is_a_file None) = [EvStat "/home/u/.cache"])
      as Ht by (vm_compute; reflexivity).
    unfold result, trace in Hr, Ht.
    destruct (@launchPath Cases.cache_is_a_file None) as [t r]. simpl in Hr, Ht.
    rewrite Hr, Ht. reflexivity.
  - apply Hmissing. vm_compute. reflexivity.
Defined.

Lemma empty_executablePath_means_default_witness :
  @launchPath Cases.all_answer (Some "")
  = ([EvStat "/home/u/.cache"; EvStat "/home/u/.cache/camoufox-bin"],
     inr "/home/u/.cache/camoufox-bin")
  ∧ @assemble Cases.all_answer
      {| Options.headless := Some false; Options.proxy := None; geoip := None;
         humanize := None; enableCache := None; Options.executablePath := Some "" |}
    = @assemble Cases.all_answer Cases.headed_zvui.
Proof.
  destruct (@empty_executablePath_means_default Cases.all_answer
              {| Options.headless := Some false; Options.proxy := None; geoip := None;
                 humanize := None; enableCache := None;
                 Options.executablePath := Some "" |} eq_refl) as [Hlaunch Hassemble].
  split; [| exact Hassemble].
  rewrite Hlaunch. vm_compute. reflexivity.
Defined.






Lemma first_failure_is_the_outcome_witness :
  @assemble Sample.first_rejects Cases.end_to_end_zvui
  = ([EvStat "/home/u/.cache"; EvStat "/home/u/.cache/camoufox-bin";
      EvHttpGet "https://api.ipify.org"],
     inl (KyError "https://api.ipify.org")).
Proof.
  rewrite (proj1 (proj2 (@first_failure_is_the_outcome Sample.first_rejects
                           Cases.end_to_end_zvui))
             "/home/u/.cache/camoufox-bin" (GeoipBool true)
             (KyError "https://api.ipify.org")).
  - vm_compute. reflexivity.
  - vm_compute. reflexivity.
  - reflexivity.
  - vm_compute. reflexivity.
Defined.

Lemma explicit_pair_needs_no_network_witness :
  @z_ipv4 Sample.first_rejects "" = false
  ∧ @z_ipv6 Sample.first_rejects "" = false
  ∧ @optional_ok (@z_ipv4 Sample.first_rejects) (Some "8.8.8.8") = true
  ∧ Forall (λ e, is_request e = false)
      (trace (@assemble Sample.first_rejects Cases.explicit_pair_zvui)).
Proof.
  assert (@z_ipv4 Sample.first_rejects "" = false) as He4 by reflexivity.
  assert (@z_ipv6 Sample.first_rejects "" = false) as He6 by reflexivity.
  assert (@optional_ok (@z_ipv4 Sample.first_rejects) (Some "8.8.8.8") = true) as H4
    by (vm_compute; reflexivity).
  split; [exact He4 |]. split; [exact He6 |]. split; [exact H4 |].
  exact (@explicit_pair_needs_no_network Sample.first_rejects Cases.explicit_pair_zvui
           {| in_ipv4 := Some "8.8.8.8"; in_ipv6 := None |} He4 He6 eq_refl H4 eq_refl).
Defined.
